(** * A habit-tracking dashboard: the fetch adapters and the report composer

    Shallow embedding of [app.py]: the two fetch functions [get_weather] and
    [get_pokemon], the prompt builder [_coach_system_prompt], the report
    composer [generate_report] and the achievement rate computed by the
    page script.

    Python values are embedded as an inductive type, Python exceptions as an
    outcome type, and the services behind [requests] and the OpenAI client as
    oracles of a [World]; every call into a service is appended to a log kept
    in the program state, next to the two [st.cache_data] stores. *)

From Stdlib Require Import ZArith NArith List Finite Lia Bool.
From Stdlib Require Import Strings.String Strings.Ascii Numbers.DecimalString.
From Stdlib Require Import Numbers.DecimalZ Numbers.DecimalFacts.
From Stdlib Require Import Floats.PrimFloat Floats.FloatOps Floats.SpecFloat.
From Stdlib Require Import Numbers.Cyclic.Int63.Uint63.
From stdpp Require Import base option list gmap.

Local Open Scope Z_scope.
Local Set Warnings "-register-all".

(** ** Python strings

    A Python [str] is a sequence of Unicode code points. *)

Module PyStr.

Definition pystr : Type := list N.

(** Source literals are written as UTF-8 text and decoded to code points. *)
Fixpoint utf8_decode (bs : list N) : pystr :=
  match bs with
  | [] => []
  | b0 :: r0 =>
    if (b0 <? 128)%N then b0 :: utf8_decode r0
    else if (b0 <? 224)%N then
      match r0 with
      | b1 :: r1 => ((b0 mod 32) * 64 + b1 mod 64)%N :: utf8_decode r1
      | _ => []
      end
    else if (b0 <? 240)%N then
      match r0 with
      | b1 :: b2 :: r2 =>
        ((b0 mod 16) * 4096 + (b1 mod 64) * 64 + b2 mod 64)%N :: utf8_decode r2
      | _ => []
      end
    else
      match r0 with
      | b1 :: b2 :: b3 :: r3 =>
        ((b0 mod 8) * 262144 + (b1 mod 64) * 4096 + (b2 mod 64) * 64 + b3 mod 64)%N
          :: utf8_decode r3
      | _ => []
      end
  end.

Definition lit (s : string) : pystr :=
  utf8_decode (map N_of_ascii (list_ascii_of_string s)).

Definition nl : pystr := [10%N].

(** [not s] on a string: the empty string is the only falsy one. *)
Definition str_truthy (s : pystr) : bool :=
  match s with [] => false | _ => true end.

(** [str.isspace] on one code point: the characters for which CPython's
    [Py_UNICODE_ISSPACE] holds. *)
Definition is_space (c : N) : bool :=
  ((9 <=? c) && (c <=? 13) || (28 <=? c) && (c <=? 32)
   || (c =? 133) || (c =? 160) || (c =? 5760)
   || (8192 <=? c) && (c <=? 8202)
   || (c =? 8232) || (c =? 8233) || (c =? 8239) || (c =? 8287)
   || (c =? 12288))%N.

Fixpoint lstrip (s : pystr) : pystr :=
  match s with
  | [] => []
  | c :: r => if is_space c then lstrip r else s
  end.

Definition rstrip (s : pystr) : pystr := rev (lstrip (rev s)).

(** [s.strip()] *)
Definition strip (s : pystr) : pystr := rstrip (lstrip s).

(** [sep.join(parts)] for parts that are all strings. *)
Fixpoint str_join (sep : pystr) (parts : list pystr) : pystr :=
  match parts with
  | [] => []
  | [x] => x
  | x :: r => x ++ sep ++ str_join sep r
  end.

(** [str(n)] for an [int]. *)
Definition str_of_Z (z : Z) : pystr :=
  lit (NilEmpty.string_of_int (Z.to_int z)).

Fixpoint is_prefix (p s : pystr) : bool :=
  match p, s with
  | [], _ => true
  | a :: p', b :: s' => (a =? b)%N && is_prefix p' s'
  | _ :: _, [] => false
  end.

(** [sub in s] for two strings. *)
Fixpoint str_contains (sub s : pystr) : bool :=
  is_prefix sub s || match s with [] => false | _ :: s' => str_contains sub s' end.

(** [sub] occurs in [s] as a contiguous block. *)
Definition occurs_in (sub s : pystr) : Prop :=
  exists pre post, s = pre ++ sub ++ post.

End PyStr.
Export PyStr.

(** ** Python values and the operations the program applies to them *)

Module Py.

(** Values as [json.loads] produces them and as the program builds them.
    A dict is kept as its list of entries in insertion order. *)
Inductive pyval : Type :=
| PNone
| PBool (b : bool)
| PInt (z : Z)
| PFloat (f : float)
| PStr (s : pystr)
| PList (l : list pyval)
| PDict (d : list (pyval * pyval)).

Definition pydict : Type := list (pyval * pyval).

(** Exceptions: the built-in ones the program's own expressions can
    raise, and any exception raised inside a library ([requests], the JSON
    decoder, the OpenAI client), which carries its [str(e)]. *)
Inductive exn : Type :=
| AttributeError
| TypeError
| IndexError
| KeyError
| ValueError
| OverflowError
| LibraryError (descr : pystr).

Inductive outcome (A : Type) : Type :=
| Ret (a : A)
| Raise (e : exn).
Arguments Ret {A} a.
Arguments Raise {A} e.

Definition obind {A B} (m : outcome A) (k : A -> outcome B) : outcome B :=
  match m with
  | Ret a => k a
  | Raise e => Raise e
  end.

(** The value of a finite float when it is an integer. *)
Definition float_exact_Z (f : float) : option Z :=
  match Prim2SF f with
  | S754_zero _ => Some 0
  | S754_finite s m e =>
    let sg (z : Z) := if s then - z else z in
    if 0 <=? e then Some (sg (Z.pos m * 2 ^ e))
    else
      let d := 2 ^ (- e) in
      if Z.pos m mod d =? 0 then Some (sg (Z.pos m / d)) else None
  | _ => None
  end.

(** Truth value of an object, as [if v], [v or d] and [not v] test it. *)
Definition py_truthy (v : pyval) : bool :=
  match v with
  | PNone => false
  | PBool b => b
  | PInt z => negb (z =? 0)
  | PFloat f => negb (PrimFloat.eqb f 0%float)
  | PStr s => str_truthy s
  | PList l => match l with [] => false | _ => true end
  | PDict d => match d with [] => false | _ => true end
  end.

(** [a or b] *)
Definition py_or (a b : pyval) : pyval := if py_truthy a then a else b.

Definition str_eqb (a b : pystr) : bool := bool_decide (a = b).

(** Equality of two hashable objects as dict keys: numbers compare by value
    ([True == 1 == 1.0]), strings by content.  A key is found by identity
    before it is compared, and the JSON decoder hands out one and the same
    [nan] object for every [NaN] of a body, so two NaN keys are one key
    although [nan == nan] is false. *)
Definition py_key_eq (a b : pyval) : bool :=
  match a, b with
  | PNone, PNone => true
  | PStr s, PStr t => str_eqb s t
  | PFloat f, PFloat g =>
    PrimFloat.eqb f g || PrimFloat.is_nan f && PrimFloat.is_nan g
  | PFloat f, PBool c | PBool c, PFloat f =>
    match float_exact_Z f with Some z => z =? Z.b2z c | None => false end
  | PFloat f, PInt y | PInt y, PFloat f =>
    match float_exact_Z f with Some z => z =? y | None => false end
  | PBool c, PBool d => eqb c d
  | PBool c, PInt y | PInt y, PBool c => Z.b2z c =? y
  | PInt x, PInt y => x =? y
  | _, _ => false
  end.

Definition py_hashable (v : pyval) : bool :=
  match v with
  | PList _ | PDict _ => false
  | _ => true
  end.

Fixpoint dict_lookup (d : pydict) (k : pyval) : option pyval :=
  match d with
  | [] => None
  | (k', v) :: r => if py_key_eq k' k then Some v else dict_lookup r k
  end.

(** [d[k] = v] on a dict: an existing key keeps its place. *)
Fixpoint dict_set (d : pydict) (k v : pyval) : pydict :=
  match d with
  | [] => [(k, v)]
  | (k', v') :: r => if py_key_eq k' k then (k', v) :: r else (k', v') :: dict_set r k v
  end.

(** [v.get(key, default)] with a string key: only a dict has [get]. *)
Definition py_get (v : pyval) (key : pystr) (dflt : pyval) : outcome pyval :=
  match v with
  | PDict d => Ret (default dflt (dict_lookup d (PStr key)))
  | _ => Raise AttributeError
  end.

Definition seq_index {A} (l : list A) (i : Z) : option A :=
  let n := Z.of_nat (length l) in
  let j := if i <? 0 then i + n else i in
  if (0 <=? j) && (j <? n) then nth_error l (Z.to_nat j) else None.

(** [v[i]] with an integer subscript. *)
Definition py_getitem_int (v : pyval) (i : Z) : outcome pyval :=
  match v with
  | PList l =>
    match seq_index l i with Some x => Ret x | None => Raise IndexError end
  | PStr s =>
    match seq_index s i with Some c => Ret (PStr [c]) | None => Raise IndexError end
  | PDict d =>
    match dict_lookup d (PInt i) with Some x => Ret x | None => Raise KeyError end
  | _ => Raise TypeError
  end.

(** [v[key]] with a string subscript. *)
Definition py_getitem_str (v : pyval) (key : pystr) : outcome pyval :=
  match v with
  | PDict d =>
    match dict_lookup d (PStr key) with Some x => Ret x | None => Raise KeyError end
  | _ => Raise TypeError
  end.

(** [key in v] with a string on the left. *)
Definition py_in_str (key : pystr) (v : pyval) : outcome bool :=
  match v with
  | PDict d => Ret (bool_decide (is_Some (dict_lookup d (PStr key))))
  | PList l => Ret (existsb (py_key_eq (PStr key)) l)
  | PStr s => Ret (str_contains key s)
  | _ => Raise TypeError
  end.

(** The elements a [for] loop or a comprehension visits. *)
Definition py_iter (v : pyval) : outcome (list pyval) :=
  match v with
  | PList l => Ret l
  | PStr s => Ret (map (fun c => PStr [c]) s)
  | PDict d => Ret (map fst d)
  | _ => Raise TypeError
  end.

(** [isinstance(v, int)]: [bool] is a subclass of [int]. *)
Definition isinstance_int (v : pyval) : bool :=
  match v with
  | PInt _ | PBool _ => true
  | _ => false
  end.

Fixpoint all_strings (l : list pyval) : option (list pystr) :=
  match l with
  | [] => Some []
  | PStr s :: r => cons s <$> all_strings r
  | _ => None
  end.

(** [sep.join(v)]: every element visited must be a string. *)
Definition py_join (sep : pystr) (v : pyval) : outcome pystr :=
  obind (py_iter v) (fun items =>
    match all_strings items with
    | Some parts => Ret (str_join sep parts)
    | None => Raise TypeError
    end).

End Py.
Export Py.

(** ** Floating-point arithmetic of the page script *)

Module PyFloat.

(** An integer as a float; exact for magnitudes below [2^53]. *)
Definition float_of_Z (z : Z) : float :=
  if z <? 0 then PrimFloat.opp (PrimFloat.of_uint63 (Uint63.of_Z (- z)))
  else PrimFloat.of_uint63 (Uint63.of_Z z).

(** [a / b] on two ints, [b] not zero: the quotient as a float. *)
Definition py_truediv (a b : Z) : float :=
  PrimFloat.div (float_of_Z a) (float_of_Z b).

(** [round(x, 0)]: the nearest integral float, ties to the even one; the
    sign is kept, and zeros, infinities and NaN are returned as they are. *)
Definition py_round0 (x : float) : float :=
  match Prim2SF x with
  | S754_finite s m e =>
    if 0 <=? e then x
    else
      let d := 2 ^ (- e) in
      let q := Z.pos m / d in
      let r := Z.pos m mod d in
      let n := if 2 * r <? d then q
               else if d <? 2 * r then q + 1
               else if Z.even q then q else q + 1 in
      let g := float_of_Z n in
      if s then PrimFloat.opp g else g
  | _ => x
  end.

(** [int(x)]: truncation towards zero; infinities and NaN raise. *)
Definition py_int (x : float) : outcome Z :=
  match Prim2SF x with
  | S754_zero _ => Ret 0
  | S754_finite s m e =>
    let a := if 0 <=? e then Z.pos m * 2 ^ e else Z.pos m / 2 ^ (- e) in
    Ret (if s then - a else a)
  | S754_infinity _ => Raise OverflowError
  | S754_nan => Raise ValueError
  end.

End PyFloat.
Export PyFloat.

(** ** The world outside the program, the program state and its monad *)

(** What a library call gives back: an exception described by its [str(e)],
    or an answer. *)
Inductive lib_result (A : Type) : Type :=
| Failed (descr : pystr)
| Answered (a : A).
Arguments Failed {A} descr.
Arguments Answered {A} a.

(** [requests.get(url, params=..., timeout=...)] *)
Record http_request : Type := HttpRequest {
  url : pystr;
  params : list (pystr * pystr);
  timeout : Z
}.

(** A [requests.Response]: [r.status_code] and what [r.json()] does. *)
Record http_response : Type := HttpResponse {
  status_code : Z;
  json : lib_result pyval
}.

(** [OpenAI(api_key=...).responses.create(model=..., instructions=...,
    input=..., text=...)] *)
Record gen_request : Type := GenRequest {
  api_key : pystr;
  model : pystr;
  instructions : pystr;
  input : pystr;
  text : pyval
}.

(** The response object: [resp.output_text]. *)
Record gen_response : Type := GenResponse {
  output_text : option pystr
}.

Inductive net_call : Type :=
| HttpGet (req : http_request)
| OpenAICreate (req : gen_request).

(** The services answer the n-th call of a run as they please; the random
    generator selects an outcome at its n-th use; [float_repr] and [str_repr]
    are the interpreter's [repr] of a float and of a string. *)
Record World : Type := {
  http_answer : nat -> http_request -> lib_result http_response;
  openai_answer : nat -> gen_request -> lib_result gen_response;
  rng : nat -> nat;
  float_repr : float -> pystr;
  str_repr : pystr -> pystr
}.

Record state : Type := State {
  clock : Z;
  weather_cache : gmap (pystr * pystr) (Z * option pydict);
  pokemon_cache : gmap unit (Z * option pydict);
  net_log : list net_call;
  draws : nat
}.

Definition initial_state (now : Z) : state :=
  State now ∅ ∅ [] 0.

Definition set_clock (t : Z) (st : state) : state :=
  State t (weather_cache st) (pokemon_cache st) (net_log st) (draws st).

Definition set_weather_cache (c : gmap (pystr * pystr) (Z * option pydict)) (st : state) : state :=
  State (clock st) c (pokemon_cache st) (net_log st) (draws st).

Definition set_pokemon_cache (c : gmap unit (Z * option pydict)) (st : state) : state :=
  State (clock st) (weather_cache st) c (net_log st) (draws st).

Definition log_call (c : net_call) (st : state) : state :=
  State (clock st) (weather_cache st) (pokemon_cache st) (net_log st ++ [c]) (draws st).

Definition count_draw (st : state) : state :=
  State (clock st) (weather_cache st) (pokemon_cache st) (net_log st) (S (draws st)).

(** A Python call: it returns or raises, and leaves a state behind. *)
Definition M (A : Type) : Type := state -> outcome A * state.

Definition ret {A} (a : A) : M A := fun st => (Ret a, st).

Definition bind {A B} (m : M A) (k : A -> M B) : M B := fun st =>
  match m st with
  | (Ret a, st') => k a st'
  | (Raise e, st') => (Raise e, st')
  end.

Definition lift {A} (o : outcome A) : M A := fun st => (o, st).

(** [try: m  except Exception: h] *)
Definition try_except {A} (m : M A) (h : exn -> M A) : M A := fun st =>
  match m st with
  | (Ret a, st') => (Ret a, st')
  | (Raise e, st') => h e st'
  end.

Declare Scope py_scope.
Delimit Scope py_scope with py.
Notation "x <- m ;; k" := (bind m (fun x => k))
  (at level 100, m at next level, right associativity) : py_scope.
Notation "x <~ o ;; k" := (obind o (fun x => k))
  (at level 100, o at next level, right associativity) : py_scope.
Local Open Scope py_scope.

(** The network: every call is logged, then answered by the world. *)
Definition call_http (w : World) (req : http_request) : state -> lib_result http_response * state :=
  fun st => (http_answer w (length (net_log st)) req, log_call (HttpGet req) st).

Definition call_openai (w : World) (req : gen_request) : state -> lib_result gen_response * state :=
  fun st => (openai_answer w (length (net_log st)) req, log_call (OpenAICreate req) st).

(** A library call inside Python code: a failure is a raised exception. *)
Definition raising {A} (call : state -> lib_result A * state) : M A := fun st =>
  match call st with
  | (Answered a, st') => (Ret a, st')
  | (Failed d, st') => (Raise (LibraryError d), st')
  end.

(** [requests.get] *)
Definition requests_get (w : World) (req : http_request) : M http_response :=
  raising (call_http w req).

(** [r.json()] *)
Definition response_json (r : http_response) : outcome pyval :=
  match json r with
  | Answered j => Ret j
  | Failed d => Raise (LibraryError d)
  end.

(** [random.randint(a, b)]: the integers [a..b], each as likely as the
    others; an empty range raises. *)
Definition randint_outcomes (a b : Z) : list Z :=
  map (fun i => a + Z.of_nat i) (seq 0 (Z.to_nat (b - a + 1))).

Definition random_randint (w : World) (a b : Z) : M Z := fun st =>
  let outs := randint_outcomes a b in
  match nth_error outs (rng w (draws st) mod length outs)%nat with
  | Some z => (Ret z, count_draw st)
  | None => (Raise ValueError, st)
  end.

(** [@st.cache_data(ttl=...)]: Streamlit stores a result under the call's
    arguments and serves it, without running the function, until [ttl]
    seconds after it was stored; a call that raises stores nothing. *)
Section cache_data.
Context {K V : Type} `{Countable K}.
Variable ttl : Z.
Variable get_store : state -> gmap K (Z * V).
Variable set_store : gmap K (Z * V) -> state -> state.

Definition cache_live (st : state) (k : K) : option V :=
  match get_store st !! k with
  | Some (stored, v) => if bool_decide (clock st < stored + ttl) then Some v else None
  | None => None
  end.

Definition cache_data (f : K -> M V) (k : K) : M V := fun st =>
  match cache_live st k with
  | Some v => (Ret v, st)
  | None =>
    match f k st with
    | (Ret v, st') => (Ret v, set_store (<[k := (clock st', v)]> (get_store st')) st')
    | (Raise e, st') => (Raise e, st')
    end
  end.
End cache_data.

(** ** The program *)

(** [str(n)] of an [int] as the interpreter performs it: the conversion of
    an integer of more than 4300 digits, the default of
    [sys.get_int_max_str_digits()], raises [ValueError]. *)
Definition int_max_str_digits : nat := 4300.

Definition int_digits (z : Z) : nat := length (str_of_Z (Z.abs z)).

Definition py_str_of_int (z : Z) : outcome pystr :=
  if Nat.leb (int_digits z) int_max_str_digits then Ret (str_of_Z z)
  else Raise ValueError.

(** [repr(v)]: the elements of a list and the entries of a dict are
    formatted from left to right, and the first one that raises ends the
    conversion. *)
Fixpoint py_repr (w : World) (v : pyval) : outcome pystr :=
  match v with
  | PNone => Ret (lit "None")
  | PBool true => Ret (lit "True")
  | PBool false => Ret (lit "False")
  | PInt z => py_str_of_int z
  | PFloat f => Ret (float_repr w f)
  | PStr s => Ret (str_repr w s)
  | PList l =>
    parts <~ (fix items (l : list pyval) : outcome (list pystr) :=
                match l with
                | [] => Ret []
                | x :: r =>
                  s <~ py_repr w x ;; rest <~ items r ;; Ret (s :: rest)
                end) l ;;
    Ret (lit "[" ++ str_join (lit ", ") parts ++ lit "]")
  | PDict d =>
    parts <~ (fix entries (d : list (pyval * pyval)) : outcome (list pystr) :=
                match d with
                | [] => Ret []
                | (k, x) :: r =>
                  ks <~ py_repr w k ;; xs <~ py_repr w x ;; rest <~ entries r ;;
                  Ret ((ks ++ lit ": " ++ xs) :: rest)
                end) d ;;
    Ret (lit "{" ++ str_join (lit ", ") parts ++ lit "}")
  end.

(** [str(v)], as an f-string placeholder formats a value. *)
Definition py_str (w : World) (v : pyval) : outcome pystr :=
  match v with
  | PStr s => Ret s
  | _ => py_repr w v
  end.

Definition HABITS : list (pystr * pystr) :=
  [ (lit "🌅", lit "기상 미션");
    (lit "💧", lit "물 마시기");
    (lit "📚", lit "공부/독서");
    (lit "🏃", lit "운동하기");
    (lit "😴", lit "수면") ].

Definition COACH_STYLES : list (pystr * pystr) :=
  [ (lit "스파르타 코치", lit "엄격하고 단호한 톤. 변명 컷. 행동 중심. 짧고 강하게.");
    (lit "따뜻한 멘토", lit "공감과 격려 중심. 작은 성취를 칭찬. 현실적인 조언.");
    (lit "게임 마스터", lit "RPG 내레이션. 퀘스트/경험치/보상 느낌. 몰입감 있게.") ].

(** [d.get(key, dflt)] on a dict from strings to strings. *)
Fixpoint styles_get (d : list (pystr * pystr)) (key dflt : pystr) : pystr :=
  match d with
  | [] => dflt
  | (k, v) :: r => if str_eqb k key then v else styles_get r key dflt
  end.

(** A triple-quoted literal that opens with a line break: every line of it
    ends with one. *)
Definition text_block (lines : list pystr) : pystr :=
  nl ++ concat (map (fun l => l ++ nl) lines).

(** *** [get_weather] *)

(** The dict literal of the success path, its entries evaluated in order. *)
Definition weather_record (city : pystr) (j : pyval) : outcome pydict :=
  temp <~ (m <~ py_get j (lit "main") (PDict []) ;; py_get m (lit "temp") PNone) ;;
  feels <~ (m <~ py_get j (lit "main") (PDict []) ;; py_get m (lit "feels_like") PNone) ;;
  hum <~ (m <~ py_get j (lit "main") (PDict []) ;; py_get m (lit "humidity") PNone) ;;
  desc <~ (l <~ py_get j (lit "weather") (PList [PDict []]) ;;
           e <~ py_getitem_int l 0 ;;
           py_get (py_or e (PDict [])) (lit "description") PNone) ;;
  wind <~ (m <~ py_get j (lit "wind") (PDict []) ;; py_get m (lit "speed") PNone) ;;
  icon <~ (l <~ py_get j (lit "weather") (PList [PDict []]) ;;
           e <~ py_getitem_int l 0 ;;
           py_get (py_or e (PDict [])) (lit "icon") PNone) ;;
  Ret [ (PStr (lit "city"), PStr city);
        (PStr (lit "temp_c"), temp);
        (PStr (lit "feels_like_c"), feels);
        (PStr (lit "humidity"), hum);
        (PStr (lit "desc"), desc);
        (PStr (lit "wind_mps"), wind);
        (PStr (lit "icon"), icon) ].

Definition weather_request (city api_key : pystr) : http_request :=
  HttpRequest (lit "https://api.openweathermap.org/data/2.5/weather")
    [ (lit "q", city); (lit "appid", api_key);
      (lit "units", lit "metric"); (lit "lang", lit "kr") ]
    10.

(** The function under the decorator. *)
Definition get_weather_body (w : World) (city api_key : pystr) : M (option pydict) :=
  if negb (str_truthy api_key) then ret None
  else
    try_except
      (r <- requests_get w (weather_request city api_key) ;;
       if negb (status_code r =? 200) then ret None
       else
         j <- lift (response_json r) ;;
         d <- lift (weather_record city j) ;;
         ret (Some d))
      (fun _ => ret None).

(** [get_weather] as the module exports it: cached on [(city, api_key)]
    for [60 * 10] seconds. *)
Definition get_weather (w : World) (city api_key : pystr) : M (option pydict) :=
  cache_data (60 * 10) weather_cache set_weather_cache
    (fun args => get_weather_body w (fst args) (snd args)) (city, api_key).

(** *** [get_pokemon] *)

(** [[t["type"]["name"] for t in ts if "type" in t]] *)
Fixpoint type_names (ts : list pyval) : outcome (list pyval) :=
  match ts with
  | [] => Ret []
  | t :: r =>
    has <~ py_in_str (lit "type") t ;;
    if has : bool then
      ty <~ py_getitem_str t (lit "type") ;;
      n <~ py_getitem_str ty (lit "name") ;;
      rest <~ type_names r ;;
      Ret (n :: rest)
    else type_names r
  end.

(** The loop that fills [stats]. *)
Fixpoint collect_stats (ss : list pyval) (stats : pydict) : outcome pydict :=
  match ss with
  | [] => Ret stats
  | s :: r =>
    key <~ (st <~ py_get s (lit "stat") (PDict []) ;; py_get st (lit "name") PNone) ;;
    val <~ py_get s (lit "base_stat") PNone ;;
    if py_truthy key && isinstance_int val then
      if py_hashable key then collect_stats r (dict_set stats key val)
      else Raise TypeError
    else collect_stats r stats
  end.

Definition pokemon_record (j : pyval) : outcome pydict :=
  name <~ py_get j (lit "name") PNone ;;
  dex <~ py_get j (lit "id") PNone ;;
  types <~ (tv <~ py_get j (lit "types") (PList []) ;;
            ts <~ py_iter tv ;;
            type_names ts) ;;
  stats <~ (sv <~ py_get j (lit "stats") (PList []) ;;
            ss <~ py_iter sv ;;
            collect_stats ss []) ;;
  artwork <~ (a <~ py_get j (lit "sprites") (PDict []) ;;
              b <~ py_get a (lit "other") (PDict []) ;;
              c <~ py_get b (lit "official-artwork") (PDict []) ;;
              py_get c (lit "front_default") PNone) ;;
  Ret [ (PStr (lit "name"), name);
        (PStr (lit "dex"), dex);
        (PStr (lit "types"), PList types);
        (PStr (lit "stats"), PDict stats);
        (PStr (lit "artwork"), artwork) ].

Definition pokemon_request (pid : Z) : http_request :=
  HttpRequest (lit "https://pokeapi.co/api/v2/pokemon/" ++ str_of_Z pid) [] 10.

Definition get_pokemon_body (w : World) : M (option pydict) :=
  pid <- random_randint w 1 151 ;;
  try_except
    (r <- requests_get w (pokemon_request pid) ;;
     if negb (status_code r =? 200) then ret None
     else
       j <- lift (response_json r) ;;
       d <- lift (pokemon_record j) ;;
       ret (Some d))
    (fun _ => ret None).

(** [get_pokemon] as the module exports it: no arguments, cached for
    [60 * 60] seconds. *)
Definition get_pokemon (w : World) : M (option pydict) :=
  cache_data (60 * 60) pokemon_cache set_pokemon_cache
    (fun _ => get_pokemon_body w) tt.

(** *** [_coach_system_prompt] *)
Definition _coach_system_prompt (style_label : pystr) : pystr :=
  strip (text_block
    [ lit "너는 'AI 습관 코치'다. 사용자의 오늘 습관 체크인 + 기분 + 날씨 + 포켓몬 정보를 보고,";
      lit "행동을 유도하는 1일 리포트를 작성한다.";
      [];
      lit "코치 스타일: " ++ style_label;
      lit "스타일 가이드: " ++ styles_get COACH_STYLES style_label [];
      [];
      lit "출력 규칙:";
      lit "- 반드시 아래 섹션을 순서대로 출력한다.";
      lit "- 한국어로 작성한다.";
      lit "- 군더더기 없이, 하지만 읽기 즐겁게.";
      [];
      lit "출력 형식(그대로 유지):";
      lit "1) 컨디션 등급: (S/A/B/C/D 중 하나) - 한 줄 코멘트";
      lit "2) 습관 분석:";
      lit "- 잘한 점 2개";
      lit "- 아쉬운 점 1개";
      lit "- 내일 1% 개선 액션 1개";
      lit "3) 날씨 코멘트: (날씨/기온/체감/습도 중 2개 이상을 엮어서 현실적인 조언)";
      lit "4) 내일 미션(체크박스 기반): 3개 (각각 1줄, 구체적으로)";
      lit "5) 오늘의 파트너 포켓몬:";
      lit "- 포켓몬: 이름(#도감번호)";
      lit "- 타입:";
      lit "- 스탯 하이라이트: (스탯 2개를 골라 숫자와 함께)";
      lit "- 응원 멘트: (스탯을 은유로 연결해서, 한 문단)";
      [];
      lit "등급 기준 힌트(너가 판단):";
      lit "- S: 5개 습관 중 4~5개 + 기분 8~10";
      lit "- A: 3~4개 + 기분 7~10";
      lit "- B: 2~3개 + 기분 5~8";
      lit "- C: 1~2개 또는 기분 3~5";
      lit "- D: 0~1개 + 기분 1~3" ]).

(** *** [generate_report] *)

(** [d.get(key)] on a value known to be a dict. *)
Definition dict_get (d : pydict) (key : pystr) : pyval :=
  default PNone (dict_lookup d (PStr key)).

(** Truth value of an argument typed [dict | None]. *)
Definition opt_truthy (d : option pydict) : bool :=
  match d with
  | Some (_ :: _) => true
  | _ => false
  end.

(** [d or {}] *)
Definition or_empty (d : option pydict) : pydict :=
  if opt_truthy d then default [] d else [].

(** The placeholders of an f-string are formatted from left to right. *)
Definition weather_text (w : World) (weather : option pydict) : outcome pystr :=
  let wd := or_empty weather in
  if opt_truthy weather then
    city <~ py_str w (dict_get wd (lit "city")) ;;
    desc <~ py_str w (dict_get wd (lit "desc")) ;;
    temp <~ py_str w (dict_get wd (lit "temp_c")) ;;
    feels <~ py_str w (dict_get wd (lit "feels_like_c")) ;;
    hum <~ py_str w (dict_get wd (lit "humidity")) ;;
    wind <~ py_str w (dict_get wd (lit "wind_mps")) ;;
    Ret (lit "- 도시: " ++ city ++ nl ++
         lit "- 날씨: " ++ desc ++ nl ++
         lit "- 기온(섭씨): " ++ temp ++ lit "°C / 체감: " ++ feels ++ lit "°C" ++ nl ++
         lit "- 습도: " ++ hum ++ lit "% / 바람: " ++ wind ++ lit " m/s" ++ nl)
  else Ret (lit "- (날씨 정보 없음)" ++ nl).

(** [p.get('types', []) or []] *)
Definition type_items (p : pydict) : pyval :=
  py_or (default (PList []) (dict_lookup p (PStr (lit "types")))) (PList []).

Definition pokemon_text (w : World) (pokemon : option pydict) : outcome pystr :=
  let p := or_empty pokemon in
  if opt_truthy pokemon then
    name <~ py_str w (dict_get p (lit "name")) ;;
    dex <~ py_str w (dict_get p (lit "dex")) ;;
    types <~ py_join (lit ", ") (type_items p) ;;
    stats <~ py_str w (dict_get p (lit "stats")) ;;
    Ret (lit "- 이름: " ++ name ++ lit " / 도감번호: " ++ dex ++ nl ++
         lit "- 타입: " ++ types ++ nl ++
         lit "- 스탯: " ++ stats ++ nl)
  else Ret (lit "- (포켓몬 정보 없음)" ++ nl).

Definition habits_text (habits_checked : list pystr) : pystr :=
  match habits_checked with
  | [] => lit "없음"
  | _ => str_join (lit ", ") habits_checked
  end.

Definition user_payload (w : World) (habits_checked : list pystr) (mood : Z)
    (weather pokemon : option pydict) : outcome pystr :=
  wt <~ weather_text w weather ;;
  pt <~ pokemon_text w pokemon ;;
  m <~ py_str_of_int mood ;;
  Ret (strip (text_block
    [ lit "[오늘 체크인]";
      lit "- 완료한 습관: " ++ habits_text habits_checked;
      lit "- 기분(1~10): " ++ m;
      [];
      lit "[날씨]";
      wt;
      [];
      lit "[포켓몬]";
      pt;
      [];
      lit "주의:";
      lit "- 포켓몬/날씨 정보가 없으면, 없는 상태에서도 설득력 있게 리포트를 작성해라." ])).

Definition report_request (openai_api_key coach_style payload : pystr) : gen_request :=
  GenRequest openai_api_key (lit "gpt-5-mini") (_coach_system_prompt coach_style) payload
    (PDict [(PStr (lit "format"), PDict [(PStr (lit "type"), PStr (lit "text"))])]).

(** The result is the pair [(text, error)]. The client call is the one
    step of the [try] block that can raise; [descr] is the [str(e)] of what
    it raised. *)
Definition generate_report (w : World) (openai_api_key coach_style : pystr)
    (habits_checked : list pystr) (mood : Z) (weather pokemon : option pydict)
    : M (option pystr * option pystr) :=
  if negb (str_truthy openai_api_key) then
    ret (None, Some (lit "OpenAI API Key가 필요합니다."))
  else
    payload <- lift (user_payload w habits_checked mood weather pokemon) ;;
    fun st =>
      match call_openai w (report_request openai_api_key coach_style payload) st with
      | (Answered resp, st') =>
        (Ret (Some (strip (default [] (output_text resp))), None), st')
      | (Failed descr, st') =>
        (Ret (None, Some (lit "OpenAI 호출 실패: " ++ descr)), st')
      end.

(** *** The achievement rate of the page script *)

Fixpoint flags_set (hs : list (pystr * bool)) (label : pystr) (v : bool) : list (pystr * bool) :=
  match hs with
  | [] => [(label, v)]
  | (l, x) :: r => if str_eqb l label then (l, v) :: r else (l, x) :: flags_set r label v
  end.

(** [habit_state[label] = st.checkbox(f"{emoji} {label}", value=False)] for
    every habit; [checkbox] is what the user has ticked. *)
Definition habit_state (checkbox : pystr -> bool) : list (pystr * bool) :=
  fold_left
    (fun hs h => flags_set hs (snd h) (checkbox (fst h ++ lit " " ++ snd h)))
    HABITS [].

Definition checked_habits (hs : list (pystr * bool)) : list pystr :=
  map fst (List.filter (fun kv => snd kv) hs).

Definition checked_count (hs : list (pystr * bool)) : nat :=
  length (checked_habits hs).

(** [int(round((checked_count / len(HABITS)) * 100, 0))] *)
Definition achv_rate (hs : list (pystr * bool)) : outcome Z :=
  py_int (py_round0
    (PrimFloat.mul
       (py_truediv (Z.of_nat (checked_count hs)) (Z.of_nat (length HABITS)))
       (float_of_Z 100))).

(** *** [safe_get] *)

(** [requests.get(url, timeout=timeout)] with every exception turned into
    [None]; [timeout] defaults to 10. *)
Definition safe_get (w : World) (url : pystr) (timeout : Z) : M (option http_response) :=
  try_except
    (r <- requests_get w (HttpRequest url [] timeout) ;; ret (Some r))
    (fun _ => ret None).

(** *** [type_ko] *)

Definition type_ko_mapping : list (pystr * pystr) :=
  [ (lit "grass", lit "풀");
    (lit "fire", lit "불꽃");
    (lit "water", lit "물");
    (lit "bug", lit "벌레");
    (lit "normal", lit "노말");
    (lit "poison", lit "독");
    (lit "electric", lit "전기");
    (lit "ground", lit "땅");
    (lit "fairy", lit "페어리");
    (lit "fighting", lit "격투");
    (lit "psychic", lit "에스퍼");
    (lit "rock", lit "바위");
    (lit "ghost", lit "고스트");
    (lit "ice", lit "얼음");
    (lit "dragon", lit "드래곤");
    (lit "flying", lit "비행");
    (lit "steel", lit "강철");
    (lit "dark", lit "악") ].

(** [mapping.get(t, t)] *)
Definition type_ko (t : pystr) : pystr := styles_get type_ko_mapping t t.

(** *** The stat chart of the creature card *)

Definition STAT_LABELS_KO : list (pystr * pystr) :=
  [ (lit "hp", lit "HP");
    (lit "attack", lit "공격");
    (lit "defense", lit "방어");
    (lit "special-attack", lit "특수공격");
    (lit "special-defense", lit "특수방어");
    (lit "speed", lit "스피드") ].

(** [k in STAT_LABELS_KO] and [STAT_LABELS_KO[k]] for a key of a dict: only
    a string can be one of the names. *)
Fixpoint labels_find (d : list (pystr * pystr)) (key : pystr) : option pystr :=
  match d with
  | [] => None
  | (k, v) :: r => if str_eqb k key then Some v else labels_find r key
  end.

Definition stat_label (k : pyval) : option pystr :=
  match k with
  | PStr s => labels_find STAT_LABELS_KO s
  | _ => None
  end.

(** The loop over [stats.items()]: a row [{"stat": label, "value": v}] for
    every stat with a known name. *)
Fixpoint stat_rows (items : pydict) : list (pystr * pyval) :=
  match items with
  | [] => []
  | (k, v) :: r =>
    match stat_label k with
    | Some label => (label, v) :: stat_rows r
    | None => stat_rows r
    end
  end.

(** [stats = pokemon.get("stats") or {}] followed by the loop; [items] is a
    method of dicts only. *)
Definition stat_items (pokemon : pydict) : outcome (list (pystr * pyval)) :=
  match py_or (dict_get pokemon (lit "stats")) (PDict []) with
  | PDict d => Ret (stat_rows d)
  | _ => Raise AttributeError
  end.

(** *** [build_demo_week] *)

(** [range(start, stop, -1)] *)
Definition range_down (start stop : Z) : list Z :=
  map (fun i => start - Z.of_nat i) (seq 0 (Z.to_nat (start - stop))).

(** A row of the frame; [row_date] is the index after [set_index("date")],
    a date counted in days. *)
Record week_row : Type := WeekRow {
  row_date : Z;
  row_achv_rate : Z;
  row_checked : Z;
  row_mood : Z
}.

(** [base] is [datetime.now().date()]. *)
Definition build_demo_week (base today_rate today_checked today_mood : Z) : list week_row :=
  let dates := map (fun d => base - d) (range_down 6 0) ++ [base] in
  let date_at (i : nat) := nth i dates 0 in
  let sample :=
    [ WeekRow (date_at 0%nat) 40 2 5;
      WeekRow (date_at 1%nat) 60 3 6;
      WeekRow (date_at 2%nat) 80 4 7;
      WeekRow (date_at 3%nat) 20 1 4;
      WeekRow (date_at 4%nat) 60 3 6;
      WeekRow (date_at 5%nat) 40 2 5 ] in
  sample ++ [WeekRow (date_at 6%nat) today_rate today_checked today_mood].

(** *** The page script: fetches, report and shareable text *)

(** Lines 380 to 399: the two fetches of every run, and the report when
    the button was pressed. *)
Definition page_run (w : World) (city weather_key openai_key coach_style : pystr)
    (checkbox : pystr -> bool) (mood : Z) (btn : bool)
    : M (option pydict * option pydict * option (option pystr * option pystr)) :=
  let checked := checked_habits (habit_state checkbox) in
  weather <- get_weather w city weather_key ;;
  pokemon <- get_pokemon w ;;
  if btn then
    res <- generate_report w openai_key coach_style checked mood weather pokemon ;;
    ret (weather, pokemon, Some res)
  else ret (weather, pokemon, None).

(** The text offered for sharing, built after a report without error. *)
Definition share_text (achv_rate : Z) (checked_count : nat) (checked : list pystr)
    (mood : Z) (city report : pystr) : pystr :=
  strip
    (lit "[AI 습관 트래커 - 오늘의 컨디션]" ++ nl ++
     lit "- 달성률: " ++ str_of_Z achv_rate ++ lit "% (" ++
       str_of_Z (Z.of_nat checked_count) ++ lit "/" ++
       str_of_Z (Z.of_nat (length HABITS)) ++ lit ")" ++ nl ++
     lit "- 완료: " ++ habits_text checked ++ nl ++
     lit "- 기분: " ++ str_of_Z mood ++ lit "/10" ++ nl ++
     lit "- 도시: " ++ city ++ nl ++
     nl ++
     report ++ nl).

(** ** Runs of the program, and the vocabulary of the properties *)

Abbreviation weather_ttl := (60 * 10).
Abbreviation pokemon_ttl := (60 * 60).

(** The states a page can be in: a fresh process, then any sequence of
    calls of the three functions while time passes. *)
Inductive reachable (w : World) : state -> Prop :=
| reach_init now :
    reachable w (initial_state now)
| reach_tick st t :
    reachable w st -> clock st <= t -> reachable w (set_clock t st)
| reach_weather st city key :
    reachable w st -> reachable w (snd (get_weather w city key st))
| reach_pokemon st :
    reachable w st -> reachable w (snd (get_pokemon w st))
| reach_report st key style habits mood weather pokemon :
    reachable w st ->
    reachable w (snd (generate_report w key style habits mood weather pokemon st)).

(** What every stored weather result looks like: nothing was fetched for an
    empty key, and a stored record carries the city it was asked for. *)
Definition weather_entry_ok (city key : pystr) (v : option pydict) : Prop :=
  (key = [] -> v = None) /\
  (forall d, v = Some d -> dict_lookup d (PStr (lit "city")) = Some (PStr city)).

Definition weather_cache_ok (st : state) : Prop :=
  forall city key stored v,
    weather_cache st !! (city, key) = Some (stored, v) -> weather_entry_ok city key v.

(** The value found under [outer.inner] in a response body, absent when a
    link of the path is missing. *)
Definition sub_field (body : pydict) (outer inner : pystr) : pyval :=
  match dict_lookup body (PStr outer) with
  | Some (PDict m) => default PNone (dict_lookup m (PStr inner))
  | _ => PNone
  end.

(** The value found under [weather[0].inner], absent when there is none. *)
Definition first_weather_field (body : pydict) (inner : pystr) : pyval :=
  match dict_lookup body (PStr (lit "weather")) with
  | Some (PList (PDict m :: _)) => default PNone (dict_lookup m (PStr inner))
  | _ => PNone
  end.

(** The known JSON shape with sub-fields left out: [main] and [wind] are
    objects when they are there, and [weather], when it is there, is a
    non-empty array that starts with an object or with a null. *)
Definition object_or_missing (body : pydict) (key : pystr) : bool :=
  match dict_lookup body (PStr key) with
  | None | Some (PDict _) => true
  | _ => false
  end.

Definition weather_list_ok (body : pydict) : bool :=
  match dict_lookup body (PStr (lit "weather")) with
  | None | Some (PList (PDict _ :: _)) | Some (PList (PNone :: _)) => true
  | _ => false
  end.

Definition known_shape (body : pydict) : bool :=
  object_or_missing body (lit "main") && object_or_missing body (lit "wind")
  && weather_list_ok body.

(** The items of a list written one after the other, with [sep] between
    two neighbours. *)
Definition listed (sep : pystr) (items : list pystr) : pystr :=
  match items with
  | [] => []
  | x :: r => x ++ concat (map (fun y => sep ++ y) r)
  end.

(** The integer that a decimal numeral denotes: ASCII digits without a
    leading zero, after a minus sign for a negative number. *)
Definition decimal_value (s : pystr) : option Z :=
  if forallb (fun c => (c <? 128)%N) s then
    match NilEmpty.int_of_string (string_of_list_ascii (map ascii_of_N s)) with
    | Some d => if Decimal.int_beq (Decimal.norm d) d then Some (Z.of_int d) else None
    | None => None
    end
  else None.



(** No whitespace at either end. *)
Definition trimmed (s : pystr) : Prop :=
  (forall c r, s = c :: r -> is_space c = false) /\
  (forall c r, s = r ++ [c] -> is_space c = false).

Definition all_space (s : pystr) : Prop := Forall (fun c => is_space c = true) s.

(** The result pair of the composer has exactly one side: a text and no
    error, or no text and an error that is not the empty string. *)
Definition one_sided (res : option pystr * option pystr) : Prop :=
  (exists text, res = (Some text, None))
  \/ (exists err, res = (None, Some err) /\ err <> []).

(** The keys of a dict differ pairwise, each from the ones after it. *)
Inductive distinct_keys : pydict -> Prop :=
| distinct_nil : distinct_keys []
| distinct_cons k v d :
    (forall k' v', In (k', v') d -> py_key_eq k k' = false) ->
    distinct_keys d ->
    distinct_keys ((k, v) :: d).

(** An entry that the stats loop keeps. *)
Definition kept_stat (kv : pyval * pyval) : Prop :=
  py_truthy (fst kv) = true /\ py_hashable (fst kv) = true
  /\ isinstance_int (snd kv) = true.

(** The entries of the [types] array and the names read from them, in
    order: an object with a [type] object that has a [name] gives its name,
    an object without [type] gives nothing. *)
Inductive names_of : list pyval -> list pyval -> Prop :=
| names_nil : names_of [] []
| names_typed d t n es ns :
    dict_lookup d (PStr (lit "type")) = Some (PDict t) ->
    dict_lookup t (PStr (lit "name")) = Some n ->
    names_of es ns ->
    names_of (PDict d :: es) (n :: ns)
| names_untyped d es ns :
    dict_lookup d (PStr (lit "type")) = None ->
    names_of es ns ->
    names_of (PDict d :: es) ns.

(** The value under [sprites.other.official-artwork.front_default], absent
    when a link of the path is missing. *)
Definition artwork_of (body : pydict) : pyval :=
  match dict_lookup body (PStr (lit "sprites")) with
  | Some (PDict s) =>
    match dict_lookup s (PStr (lit "other")) with
    | Some (PDict o) =>
      match dict_lookup o (PStr (lit "official-artwork")) with
      | Some (PDict a) => default PNone (dict_lookup a (PStr (lit "front_default")))
      | _ => PNone
      end
    | _ => PNone
    end
  | _ => PNone
  end.

(** A stats entry as the service lists it. *)
Definition stat_entry (name : pystr) (value : pyval) : pyval :=
  PDict [ (PStr (lit "base_stat"), value);
          (PStr (lit "effort"), PInt 0);
          (PStr (lit "stat"), PDict [(PStr (lit "name"), PStr name)]) ].

(** What the caches hold was built by the two record builders. *)
Definition caches_hold_records (st : state) : Prop :=
  (forall city key stored rec,
     weather_cache st !! (city, key) = Some (stored, Some rec) ->
     exists j, weather_record city j = Ret rec)
  /\ (forall stored p,
        pokemon_cache st !! tt = Some (stored, Some p) ->
        exists j, pokemon_record j = Ret p).

(** The blocks occur in the text one after the other, in this order. *)
Fixpoint in_order (blocks : list pystr) (s : pystr) : Prop :=
  match blocks with
  | [] => True
  | b :: bs => exists pre rest, s = pre ++ b ++ rest /\ in_order bs rest
  end.

(** A weather body outside the known shape: not an object, or with a
    [main] or [wind] that is there but is not an object, or with an empty
    [weather] array. *)
Definition is_object (v : pyval) : bool :=
  match v with
  | PDict _ => true
  | _ => false
  end.

Definition malformed_weather (j : pyval) : Prop :=
  is_object j = false
  \/ exists body, j = PDict body
       /\ ((exists v, dict_lookup body (PStr (lit "main")) = Some v /\ is_object v = false)
           \/ (exists v, dict_lookup body (PStr (lit "wind")) = Some v /\ is_object v = false)
           \/ dict_lookup body (PStr (lit "weather")) = Some (PList [])).

(** What a fetch returns once the service has answered its request. *)
Definition weather_of_answer (city : pystr) (a : lib_result http_response) : option pydict :=
  match a with
  | Answered r =>
    if status_code r =? 200 then
      match json r with
      | Answered j =>
        match weather_record city j with Ret d => Some d | Raise _ => None end
      | Failed _ => None
      end
    else None
  | Failed _ => None
  end.

Definition pokemon_of_answer (a : lib_result http_response) : option pydict :=
  match a with
  | Answered r =>
    if status_code r =? 200 then
      match json r with
      | Answered j =>
        match pokemon_record j with Ret d => Some d | Raise _ => None end
      | Failed _ => None
      end
    else None
  | Failed _ => None
  end.

(** What [get_weather] computes when its cache has nothing to serve. *)
Definition fetched_weather (w : World) (city key : pystr) (st : state) : option pydict :=
  if str_truthy key
  then weather_of_answer city
         (http_answer w (length (net_log st)) (weather_request city key))
  else None.

(** The identifier the generator hands to [get_pokemon] in a state. *)
Definition drawn_id (w : World) (st : state) : Z :=
  1 + Z.of_nat (rng w (draws st) mod 151)%nat.

(** ** Sample worlds and inputs

    A world in which every HTTP request gets the same answer, every
    generation request gets the same answer and the generator always selects
    the same outcome. *)
Definition scripted_world (http : lib_result http_response)
    (gen : lib_result gen_response) (pick : nat) : World :=
  {| http_answer := fun _ _ => http;
     openai_answer := fun _ _ => gen;
     rng := fun _ => pick;
     float_repr := fun _ => lit "0.0";
     str_repr := fun s => lit "'" ++ s ++ lit "'" |}.

Definition unreachable_world : World :=
  scripted_world (Failed (lit "connection refused")) (Failed (lit "connection refused")) 0.

Definition ok_json (j : pyval) : lib_result http_response :=
  Answered (HttpResponse 200 (Answered j)).

(** A weather body that names another city and leaves [wind] out. *)
Definition busan_body : pydict :=
  [ (PStr (lit "name"), PStr (lit "Busan"));
    (PStr (lit "main"), PDict [(PStr (lit "temp"), PInt 3); (PStr (lit "humidity"), PInt 40)]);
    (PStr (lit "weather"), PList [PDict [(PStr (lit "description"), PStr (lit "맑음"))]]) ].

(** A creature as [get_pokemon] builds it. *)
Definition squirtle : pydict :=
  [ (PStr (lit "name"), PStr (lit "squirtle"));
    (PStr (lit "dex"), PInt 7);
    (PStr (lit "types"), PList [PStr (lit "water")]);
    (PStr (lit "stats"), PDict [(PStr (lit "hp"), PInt 44); (PStr (lit "speed"), PInt 43)]);
    (PStr (lit "artwork"), PNone) ].

(** A creature whose type list holds a number. *)
Definition odd_creature : pydict :=
  [ (PStr (lit "name"), PStr (lit "missingno"));
    (PStr (lit "types"), PList [PInt 0]) ].

(** A weather record as [get_weather] builds it. *)
Definition seoul_weather : pydict :=
  [ (PStr (lit "city"), PStr (lit "Seoul"));
    (PStr (lit "temp_c"), PInt 3);
    (PStr (lit "feels_like_c"), PInt (-1));
    (PStr (lit "humidity"), PInt 40);
    (PStr (lit "desc"), PStr (lit "맑음"));
    (PStr (lit "wind_mps"), PNone);
    (PStr (lit "icon"), PStr (lit "01d")) ].

(** The user-content block for two completed habits, mood 9, the Seoul
    weather and squirtle, character by character as the interpreter writes
    it. *)
Definition sample_payload : pystr :=
  lit "[오늘 체크인]" ++ nl ++
  lit "- 완료한 습관: 물 마시기, 수면" ++ nl ++
  lit "- 기분(1~10): 9" ++ nl ++
  nl ++
  lit "[날씨]" ++ nl ++
  lit "- 도시: Seoul" ++ nl ++
  lit "- 날씨: 맑음" ++ nl ++
  lit "- 기온(섭씨): 3°C / 체감: -1°C" ++ nl ++
  lit "- 습도: 40% / 바람: None m/s" ++ nl ++
  nl ++
  nl ++
  lit "[포켓몬]" ++ nl ++
  lit "- 이름: squirtle / 도감번호: 7" ++ nl ++
  lit "- 타입: water" ++ nl ++
  lit "- 스탯: {'hp': 44, 'speed': 43}" ++ nl ++
  nl ++
  nl ++
  lit "주의:" ++ nl ++
  lit "- 포켓몬/날씨 정보가 없으면, 없는 상태에서도 설득력 있게 리포트를 작성해라.".

(** A creature body in which two stats are named by the number [NaN], and
    the record that [get_pokemon] builds from it: the two share one entry. *)
Definition nan_named_body : pydict :=
  [ (PStr (lit "id"), PInt 7);
    (PStr (lit "name"), PStr (lit "squirtle"));
    (PStr (lit "stats"),
     PList [ PDict [ (PStr (lit "base_stat"), PInt 1);
                     (PStr (lit "stat"), PDict [(PStr (lit "name"), PFloat PrimFloat.nan)]) ];
             stat_entry (lit "hp") (PInt 44);
             stat_entry (lit "ratio") (PFloat 0.5%float);
             PDict [ (PStr (lit "base_stat"), PInt 2);
                     (PStr (lit "stat"), PDict [(PStr (lit "name"), PFloat PrimFloat.nan)]) ] ]) ].

Definition nan_named_creature : pydict :=
  [ (PStr (lit "name"), PStr (lit "squirtle"));
    (PStr (lit "dex"), PInt 7);
    (PStr (lit "types"), PList []);
    (PStr (lit "stats"), PDict [(PFloat PrimFloat.nan, PInt 2); (PStr (lit "hp"), PInt 44)]);
    (PStr (lit "artwork"), PNone) ].

(** A creature body of the service whose second type carries no name, and
    the record that [get_pokemon] builds from it. *)
Definition nameless_type_body : pydict :=
  [ (PStr (lit "id"), PInt 7);
    (PStr (lit "name"), PStr (lit "squirtle"));
    (PStr (lit "types"),
     PList [ PDict [ (PStr (lit "slot"), PInt 1);
                     (PStr (lit "type"), PDict [(PStr (lit "name"), PStr (lit "water"))]) ];
             PDict [ (PStr (lit "slot"), PInt 2);
                     (PStr (lit "type"), PDict [(PStr (lit "name"), PNone)]) ] ]) ].

Definition nameless_type_creature : pydict :=
  [ (PStr (lit "name"), PStr (lit "squirtle"));
    (PStr (lit "dex"), PInt 7);
    (PStr (lit "types"), PList [PStr (lit "water"); PNone]);
    (PStr (lit "stats"), PDict []);
    (PStr (lit "artwork"), PNone) ].

Definition nameless_type_world : World :=
  scripted_world (ok_json (PDict nameless_type_body))
    (Answered (GenResponse (Some (lit "1) 컨디션 등급: A")))) 6.

(** A world whose first HTTP answer is a transport failure and whose later
    answers are the Busan body. *)
Definition recovering_world : World :=
  {| http_answer := fun n _ =>
       match n with
       | O => Failed (lit "connection refused")
       | _ => ok_json (PDict busan_body)
       end;
     openai_answer := fun _ _ => Answered (GenResponse (Some (lit "  1) 컨디션 등급: A  ")));
     rng := fun n => (n + 24)%nat;
     float_repr := fun _ => lit "0.0";
     str_repr := fun s => lit "'" ++ s ++ lit "'" |}.

(** * Properties *)

(** ** Strings *)

Lemma lstrip_nonspace c r : is_space c = false -> lstrip (c :: r) = c :: r.
Proof. intros Hc. simpl. now rewrite Hc. Qed.

Lemma lstrip_space c r : is_space c = true -> lstrip (c :: r) = lstrip r.
Proof. intros Hc. simpl. now rewrite Hc. Qed.

Lemma rstrip_snoc_nonspace s c : is_space c = false -> rstrip (s ++ [c]) = s ++ [c].
Proof.
  intros Hc. unfold rstrip. rewrite rev_app_distr. simpl.
  rewrite Hc. simpl. now rewrite rev_involutive.
Qed.

Lemma rstrip_snoc_space s c : is_space c = true -> rstrip (s ++ [c]) = rstrip s.
Proof.
  intros Hc. unfold rstrip. rewrite rev_app_distr. simpl. now rewrite Hc.
Qed.

(** [lstrip] removes a block of whitespace and stops at the first other
    character. *)
Lemma lstrip_split s :
  exists pre, all_space pre /\ s = pre ++ lstrip s /\
    (forall c r, lstrip s = c :: r -> is_space c = false).
Proof.
  induction s as [|a s IH].
  - exists []. repeat split; [constructor | discriminate].
  - simpl. destruct (is_space a) eqn:Ha.
    + destruct IH as (pre & Hpre & Heq & Hhd).
      exists (a :: pre). repeat split.
      * now constructor.
      * simpl. now f_equal.
      * exact Hhd.
    + exists []. repeat split; [constructor |].
      intros c r Hcr. now inversion Hcr; subst.
Qed.

Lemma all_space_rev s : all_space s -> all_space (rev s).
Proof.
  unfold all_space. apply List.Forall_rev.
Qed.

Lemma rstrip_split s :
  exists post, all_space post /\ s = rstrip s ++ post /\
    (forall c r, rstrip s = r ++ [c] -> is_space c = false).
Proof.
  unfold rstrip. destruct (lstrip_split (rev s)) as (pre & Hpre & Heq & Hhd).
  exists (rev pre). repeat split.
  - now apply all_space_rev.
  - rewrite <- rev_app_distr, <- Heq. now rewrite rev_involutive.
  - intros c r Hcr. apply (Hhd c (rev r)).
    rewrite <- (rev_involutive (lstrip (rev s))), Hcr, rev_app_distr. reflexivity.
Qed.

Lemma lstrip_suffix_nonspace s c r :
  lstrip s = c :: r -> is_space c = false.
Proof. destruct (lstrip_split s) as (? & _ & _ & H). apply H. Qed.

(** Trimming the right end leaves the left end as it was. *)
Lemma rstrip_keeps_head s c r :
  is_space c = false -> s = c :: r -> exists r', rstrip s = c :: r'.
Proof.
  intros Hc ->. revert c Hc. induction r as [|b r IH] using rev_ind; intros c Hc.
  - exists []. exact (rstrip_snoc_nonspace [] c Hc).
  - destruct (is_space b) eqn:Hb.
    + rewrite app_comm_cons, rstrip_snoc_space by assumption. now apply IH.
    + rewrite app_comm_cons, rstrip_snoc_nonspace by assumption. now exists (r ++ [b]).
Qed.

(** [strip] cuts whitespace, and only whitespace, from both ends. *)
Lemma strip_spec s :
  trimmed (strip s) /\
  exists pre post, all_space pre /\ all_space post /\ s = pre ++ strip s ++ post.
Proof.
  unfold strip.
  destruct (lstrip_split s) as (pre & Hpre & Heq & Hhd).
  destruct (rstrip_split (lstrip s)) as (post & Hpost & Heq' & Hlast).
  split.
  - split; [| exact Hlast].
    intros c r Hcr.
    destruct (lstrip s) as [|a l] eqn:Hl.
    + unfold rstrip in Hcr. simpl in Hcr. discriminate.
    + pose proof (Hhd a l eq_refl) as Ha.
      destruct (rstrip_keeps_head (a :: l) a l Ha eq_refl) as (r' & Hr').
      rewrite Hr' in Hcr. now inversion Hcr; subst.
  - exists pre, post. repeat split; try assumption.
    now rewrite <- Heq', <- Heq.
Qed.

(** A block whose first and last characters are not whitespace, between two
    line breaks, is what [strip] gives back. *)
Lemma strip_block a s b :
  is_space a = false -> is_space b = false ->
  strip (nl ++ (a :: s) ++ [b] ++ nl) = (a :: s) ++ [b].
Proof.
  intros Ha Hb. unfold strip, nl.
  change ([10%N] ++ (a :: s) ++ [b] ++ [10%N]) with (10%N :: a :: (s ++ [b] ++ [10%N])).
  rewrite lstrip_space by reflexivity.
  rewrite lstrip_nonspace by assumption.
  change (a :: s ++ [b] ++ [10%N]) with ((a :: s) ++ [b] ++ [10%N]).
  rewrite !app_assoc. rewrite rstrip_snoc_space by reflexivity.
  now rewrite rstrip_snoc_nonspace.
Qed.

Lemma occurs_in_intro (pre sub post s : pystr) :
  s = pre ++ sub ++ post -> occurs_in sub s.
Proof. intros ->. now exists pre, post. Qed.

(** ** The cache decorator *)

Section cache_facts.
Context {K V : Type} `{Countable K}.
Variable ttl : Z.
Variable get_store : state -> gmap K (Z * V).
Variable set_store : gmap K (Z * V) -> state -> state.
Variable f : K -> M V.

Lemma cache_data_hit st k v :
  cache_live ttl get_store st k = Some v ->
  cache_data ttl get_store set_store f k st = (Ret v, st).
Proof. intros Hlive. unfold cache_data. now rewrite Hlive. Qed.

Lemma cache_data_miss st k v st' :
  cache_live ttl get_store st k = None ->
  f k st = (Ret v, st') ->
  cache_data ttl get_store set_store f k st
  = (Ret v, set_store (<[k := (clock st', v)]> (get_store st')) st').
Proof. intros Hlive Hf. unfold cache_data. now rewrite Hlive, Hf. Qed.
End cache_facts.

(** ** The weather fetch *)

Lemma get_weather_body_empty_key w city st :
  get_weather_body w city [] st = (Ret None, st).
Proof. reflexivity. Qed.

Lemma get_weather_body_run w city key st :
  key <> [] ->
  get_weather_body w city key st
  = (Ret (weather_of_answer city
            (http_answer w (length (net_log st)) (weather_request city key))),
     log_call (HttpGet (weather_request city key)) st).
Proof.
  intros Hkey. destruct key as [|c key]; [congruence|].
  cbv [get_weather_body str_truthy negb try_except bind requests_get raising
       call_http weather_of_answer lift ret response_json].
  destruct (http_answer w _ _) as [descr|r]; [reflexivity|].
  destruct (status_code r =? 200); [|reflexivity].
  destruct (json r) as [descr|j]; [reflexivity|].
  destruct (weather_record city j); reflexivity.
Qed.

(** The body never raises and never touches the clock or the caches. *)
Lemma get_weather_body_returns w city key st :
  exists v, get_weather_body w city key st
            = (Ret v, if str_truthy key
                      then log_call (HttpGet (weather_request city key)) st
                      else st).
Proof.
  destruct key as [|c key].
  - exists None. reflexivity.
  - eexists. now rewrite get_weather_body_run.
Qed.

Lemma weather_record_city city j d :
  weather_record city j = Ret d ->
  dict_lookup d (PStr (lit "city")) = Some (PStr city).
Proof.
  unfold weather_record, obind. intros Hrec.
  repeat match type of Hrec with
  | match ?x with _ => _ end = _ => destruct x; try discriminate
  end.
  inversion Hrec. reflexivity.
Qed.

Lemma weather_of_answer_ok city key a :
  key <> [] -> weather_entry_ok city key (weather_of_answer city a).
Proof.
  intros Hkey. split; [congruence|].
  intros d Hd. unfold weather_of_answer in Hd.
  destruct a as [descr|r]; [discriminate|].
  destruct (status_code r =? 200); [|discriminate].
  destruct (json r) as [descr|j]; [discriminate|].
  destruct (weather_record city j) eqn:Hrec; [|discriminate].
  inversion Hd; subst. eapply weather_record_city, Hrec.
Qed.

Lemma get_weather_body_fetched (w : World) (city key : pystr) (st : state) :
  exists st', get_weather_body w city key st = (Ret (fetched_weather w city key st), st')
    /\ clock st' = clock st
    /\ weather_cache st' = weather_cache st
    /\ pokemon_cache st' = pokemon_cache st
    /\ net_log st' = (if str_truthy key
                      then net_log st ++ [HttpGet (weather_request city key)]
                      else net_log st).
Proof.
  unfold fetched_weather. destruct key as [|c key].
  - exists st. now rewrite get_weather_body_empty_key.
  - eexists. rewrite get_weather_body_run by discriminate.
    split; [reflexivity|]. now cbn.
Qed.

(** A call served from the cache changes nothing; any other call runs the
    body and stores what it returned under [(city, key)]. *)
Lemma get_weather_run (w : World) (city key : pystr) (st : state) :
  match cache_live weather_ttl weather_cache st (city, key) with
  | Some v => get_weather w city key st = (Ret v, st)
  | None =>
    exists st', get_weather w city key st = (Ret (fetched_weather w city key st), st')
      /\ clock st' = clock st
      /\ weather_cache st'
         = <[(city, key) := (clock st, fetched_weather w city key st)]> (weather_cache st)
      /\ pokemon_cache st' = pokemon_cache st
      /\ net_log st' = (if str_truthy key
                        then net_log st ++ [HttpGet (weather_request city key)]
                        else net_log st)
  end.
Proof.
  destruct (cache_live _ _ st (city, key)) as [v|] eqn:Hlive.
  - unfold get_weather. now apply cache_data_hit.
  - destruct (get_weather_body_fetched w city key st)
      as (st1 & Hrun & Hclock & Hwc & Hpc & Hlog).
    eexists. split.
    + unfold get_weather. erewrite cache_data_miss; [reflexivity | exact Hlive | exact Hrun].
    + cbn. rewrite Hclock, Hwc. auto.
Qed.

(** [get_weather] returns in every state: no exception leaves it. *)
Lemma get_weather_never_raises (w : World) (city key : pystr) (st : state) :
  exists v st', get_weather w city key st = (Ret v, st').
Proof.
  pose proof (get_weather_run w city key st) as Hrun.
  destruct (cache_live _ _ st (city, key)) as [v|].
  - eauto.
  - destruct Hrun as (st' & Hrun & _). eauto.
Qed.

(** ** The random draw and the creature fetch *)

Lemma randint_outcomes_1_151 :
  randint_outcomes 1 151 = map (fun i => 1 + Z.of_nat i) (seq 0 151).
Proof. reflexivity. Qed.

Lemma random_randint_run w st :
  random_randint w 1 151 st = (Ret (drawn_id w st), count_draw st).
Proof.
  unfold random_randint, drawn_id. rewrite randint_outcomes_1_151.
  rewrite length_map, length_seq, nth_error_map, nth_error_seq.
  assert (Hlt : (rng w (draws st) mod 151 < 151)%nat)
    by (apply Nat.mod_upper_bound; discriminate).
  apply Nat.ltb_lt in Hlt. rewrite Hlt. reflexivity.
Qed.

Lemma drawn_id_range w st : 1 <= drawn_id w st <= 151.
Proof.
  unfold drawn_id.
  assert ((rng w (draws st) mod 151 < 151)%nat)
    by (apply Nat.mod_upper_bound; discriminate).
  lia.
Qed.

(** The outcomes of [random.randint(1, 151)]: each integer of [1..151],
    once. *)
Lemma randint_outcomes_uniform :
  List.NoDup (randint_outcomes 1 151) /\
  length (randint_outcomes 1 151) = 151%nat /\
  forall z, In z (randint_outcomes 1 151) <-> 1 <= z <= 151.
Proof.
  rewrite randint_outcomes_1_151. split; [|split].
  - apply Finite.Injective_map_NoDup; [|apply seq_NoDup].
    intros a b Hab. lia.
  - now rewrite length_map, length_seq.
  - intros z. rewrite in_map_iff. split.
    + intros (i & <- & Hi). apply in_seq in Hi. lia.
    + intros Hz. exists (Z.to_nat (z - 1)). split; [lia|].
      apply in_seq. lia.
Qed.

Lemma get_pokemon_body_run w st :
  get_pokemon_body w st
  = (Ret (pokemon_of_answer
            (http_answer w (length (net_log st)) (pokemon_request (drawn_id w st)))),
     log_call (HttpGet (pokemon_request (drawn_id w st))) (count_draw st)).
Proof.
  unfold get_pokemon_body, bind at 1. rewrite random_randint_run.
  cbv [try_except bind requests_get raising call_http pokemon_of_answer lift ret
       response_json].
  change (net_log (count_draw st)) with (net_log st).
  destruct (http_answer w _ _) as [descr|r]; [reflexivity|].
  destruct (status_code r =? 200); [|reflexivity].
  destruct (json r) as [descr|j]; [reflexivity|].
  destruct (pokemon_record j); reflexivity.
Qed.

Lemma get_pokemon_run w st :
  match cache_live pokemon_ttl pokemon_cache st tt with
  | Some v => get_pokemon w st = (Ret v, st)
  | None =>
    let v := pokemon_of_answer
               (http_answer w (length (net_log st)) (pokemon_request (drawn_id w st))) in
    exists st', get_pokemon w st = (Ret v, st')
      /\ clock st' = clock st
      /\ weather_cache st' = weather_cache st
      /\ pokemon_cache st' = <[tt := (clock st, v)]> (pokemon_cache st)
      /\ net_log st' = net_log st ++ [HttpGet (pokemon_request (drawn_id w st))]
  end.
Proof.
  destruct (cache_live _ _ st tt) as [v|] eqn:Hlive.
  - unfold get_pokemon. now apply cache_data_hit.
  - eexists. split.
    + unfold get_pokemon. erewrite cache_data_miss;
        [reflexivity | exact Hlive | apply get_pokemon_body_run].
    + now cbn.
Qed.

(** ** The report composer and the state *)

Lemma generate_report_state w key style habits mood weather pokemon st :
  let st' := snd (generate_report w key style habits mood weather pokemon st) in
  clock st' = clock st /\ weather_cache st' = weather_cache st
  /\ pokemon_cache st' = pokemon_cache st.
Proof.
  unfold generate_report. destruct (negb (str_truthy key)); [now cbn|].
  unfold bind, lift.
  destruct (user_payload w habits mood weather pokemon) as [payload|e]; [|now cbn].
  unfold call_openai. destruct (openai_answer w _ _); now cbn.
Qed.

(** ** The invariant of the weather cache *)

Lemma cache_live_stored st (city key : pystr) v :
  cache_live weather_ttl weather_cache st (city, key) = Some v ->
  exists stored, weather_cache st !! (city, key) = Some (stored, v).
Proof.
  unfold cache_live.
  destruct (weather_cache st !! (city, key)) as [[stored v']|]; [|discriminate].
  destruct (bool_decide _); [|discriminate].
  intros [= ->]. now exists stored.
Qed.

Lemma cached_weather_ok st (city key : pystr) v :
  weather_cache_ok st ->
  cache_live weather_ttl weather_cache st (city, key) = Some v ->
  weather_entry_ok city key v.
Proof.
  intros Hok Hlive. destruct (cache_live_stored st city key v Hlive) as (stored & Hlook).
  exact (Hok city key stored v Hlook).
Qed.

Lemma weather_cache_ok_step (w : World) (city key : pystr) (st : state) :
  weather_cache_ok st -> weather_cache_ok (snd (get_weather w city key st)).
Proof.
  intros Hok. pose proof (get_weather_run w city key st) as Hrun.
  destruct (cache_live _ _ st (city, key)) as [v|].
  - now rewrite Hrun.
  - destruct Hrun as (st' & -> & _ & Hwc & _). cbn [snd].
    intros c k stored v. rewrite Hwc.
    destruct (decide ((city, key) = (c, k))) as [Heq|Hne].
    + rewrite Heq, lookup_insert_eq. intros [= _ <-]. inversion Heq; subst.
      unfold fetched_weather. destruct k as [|a k].
      * split; [reflexivity | discriminate].
      * now apply weather_of_answer_ok.
    + rewrite lookup_insert_ne by exact Hne. apply Hok.
Qed.

Lemma reachable_weather_cache_ok w st : reachable w st -> weather_cache_ok st.
Proof.
  induction 1 as [now | st t _ IH _ | st city key _ IH | st _ IH
                 | st key style habits mood weather pokemon _ IH].
  - intros c k stored v Hlook. cbn in Hlook. now rewrite lookup_empty in Hlook.
  - exact IH.
  - now apply weather_cache_ok_step.
  - pose proof (get_pokemon_run w st) as Hrun.
    destruct (cache_live _ _ st tt) as [v|].
    + now rewrite Hrun.
    + destruct Hrun as (st' & -> & _ & Hwc & _).
      intros c k stored v. cbn [snd]. rewrite Hwc. apply IH.
  - destruct (generate_report_state w key style habits mood weather pokemon st)
      as (_ & Hwc & _).
    intros c k stored v. rewrite Hwc. apply IH.
Qed.

(** ** Claims about the weather fetch *)

(** C1. With an empty credential no network call is issued: [get_weather]
    with an empty [api_key] returns [None] and leaves the call log as it
    was, and [generate_report] with an empty [openai_api_key] returns the
    pair of [None] and a non-empty error message, in an unchanged state. *)
Theorem empty_credential_no_network_call (w : World) (st : state)
    (city style : pystr) (habits : list pystr) (mood : Z)
    (weather pokemon : option pydict) :
  reachable w st ->
  (exists st', get_weather w city [] st = (Ret None, st')
               /\ net_log st' = net_log st)
  /\ generate_report w [] style habits mood weather pokemon st
     = (Ret (None, Some (lit "OpenAI API Key가 필요합니다.")), st)
  /\ lit "OpenAI API Key가 필요합니다." <> [].
Proof.
  intros Hreach. split; [|split; [reflexivity | discriminate]].
  pose proof (reachable_weather_cache_ok w st Hreach) as Hok.
  pose proof (get_weather_run w city [] st) as Hrun.
  match type of Hrun with
  | match ?c with _ => _ end => destruct c as [v|] eqn:Hlive
  end.
  - exists st. split; [|reflexivity]. rewrite Hrun. do 2 f_equal.
    now apply (cached_weather_ok st city [] v Hok Hlive).
  - destruct Hrun as (st' & Hrun & _ & _ & _ & Hlog). exists st'. now split.
Qed.

Lemma empty_credential_witness :
  reachable unreachable_world (initial_state 0)
  /\ (exists st', get_weather unreachable_world (lit "Seoul") [] (initial_state 0)
                  = (Ret None, st')
                  /\ net_log st' = net_log (initial_state 0))
  /\ generate_report unreachable_world [] (lit "따뜻한 멘토") [] 6 None None (initial_state 0)
     = (Ret (None, Some (lit "OpenAI API Key가 필요합니다.")), initial_state 0).
Proof.
  split; [constructor|].
  destruct (empty_credential_no_network_call unreachable_world (initial_state 0)
              (lit "Seoul") (lit "따뜻한 멘토") [] 6 None None (reach_init _ 0))
    as (Hw & Hr & _).
  split; [exact Hw | exact Hr].
Defined.

(** C4. For every city and every non-empty key, a call that reaches the
    service returns [None], and raises nothing, when the request fails with
    a transport error or the response status is not 200. *)
Theorem weather_failure_is_absent (w : World) (st : state) (city key : pystr) :
  key <> [] ->
  cache_live weather_ttl weather_cache st (city, key) = None ->
  (exists descr,
     http_answer w (length (net_log st)) (weather_request city key) = Failed descr)
  \/ (exists r,
        http_answer w (length (net_log st)) (weather_request city key) = Answered r
        /\ status_code r <> 200) ->
  exists st', get_weather w city key st = (Ret None, st').
Proof.
  intros Hkey Hlive Hans.
  pose proof (get_weather_run w city key st) as Hrun. rewrite Hlive in Hrun.
  destruct Hrun as (st' & Hrun & _). exists st'. rewrite Hrun. do 2 f_equal.
  unfold fetched_weather. destruct key as [|c key]; [congruence|]. cbn [str_truthy].
  destruct Hans as [(descr & ->) | (r & -> & Hstatus)]; [reflexivity|].
  cbn. apply Z.eqb_neq in Hstatus. now rewrite Hstatus.
Qed.

Lemma weather_failure_witness :
  exists st', get_weather unreachable_world (lit "Atlantis") (lit "key") (initial_state 0)
              = (Ret None, st').
Proof.
  apply weather_failure_is_absent.
  - discriminate.
  - reflexivity.
  - left. exists (lit "connection refused"). reflexivity.
Defined.

(** C10. Whenever [get_weather] returns a record, in any state the program
    can reach, the record's [city] entry is the [city] argument of the call,
    whatever the response body says. *)
Theorem weather_record_city_is_argument (w : World) (st : state)
    (city key : pystr) (rec : pydict) :
  reachable w st ->
  fst (get_weather w city key st) = Ret (Some rec) ->
  dict_get rec (lit "city") = PStr city.
Proof.
  intros Hreach Hret.
  pose proof (reachable_weather_cache_ok w st Hreach) as Hok.
  pose proof (get_weather_run w city key st) as Hrun.
  assert (Hentry : weather_entry_ok city key (Some rec) \/ key <> [] /\
            weather_of_answer city
              (http_answer w (length (net_log st)) (weather_request city key)) = Some rec).
  { destruct (cache_live _ _ st (city, key)) as [v|] eqn:Hlive.
    - left. rewrite Hrun in Hret. cbn in Hret. inversion Hret; subst.
      now apply (cached_weather_ok st city key _ Hok Hlive).
    - right. destruct Hrun as (st' & Hrun & _). rewrite Hrun in Hret. cbn in Hret.
      unfold fetched_weather in Hret. destruct key as [|c key]; [discriminate|].
      split; [discriminate|]. cbn [str_truthy] in Hret. congruence. }
  assert (Hcity : dict_lookup rec (PStr (lit "city")) = Some (PStr city)).
  { destruct Hentry as [[_ H] | [Hkey H]]; [now apply H|].
    pose proof (weather_of_answer_ok city key
                  (http_answer w (length (net_log st)) (weather_request city key)) Hkey)
      as [_ H'].
    now apply H'. }
  unfold dict_get. now rewrite Hcity.
Qed.

Lemma weather_record_city_witness :
  exists rec,
    fst (get_weather (scripted_world (ok_json (PDict busan_body)) (Failed []) 0)
           (lit "Seoul") (lit "key") (initial_state 0)) = Ret (Some rec)
    /\ dict_get rec (lit "city") = PStr (lit "Seoul").
Proof.
  eexists. split.
  - reflexivity.
  - apply (weather_record_city_is_argument
             (scripted_world (ok_json (PDict busan_body)) (Failed []) 0)
             (initial_state 0) (lit "Seoul") (lit "key")).
    + constructor.
    + reflexivity.
Defined.

Lemma sub_field_missing_outer body outer inner :
  dict_lookup body (PStr outer) = None -> sub_field body outer inner = PNone.
Proof. unfold sub_field. now intros ->. Qed.

Lemma sub_field_missing_inner body outer inner m :
  dict_lookup body (PStr outer) = Some (PDict m) ->
  dict_lookup m (PStr inner) = None -> sub_field body outer inner = PNone.
Proof. unfold sub_field. now intros -> ->. Qed.

Lemma sub_field_present body outer inner m v :
  dict_lookup body (PStr outer) = Some (PDict m) ->
  dict_lookup m (PStr inner) = Some v -> sub_field body outer inner = v.
Proof. unfold sub_field. now intros -> ->. Qed.

Lemma nested_get body outer inner :
  object_or_missing body outer = true ->
  obind (py_get (PDict body) outer (PDict [])) (fun m => py_get m inner PNone)
  = Ret (sub_field body outer inner).
Proof.
  unfold object_or_missing, sub_field, py_get, obind.
  destruct (dict_lookup body (PStr outer)) as [[]|]; try discriminate; reflexivity.
Qed.

Lemma first_weather_get body inner :
  weather_list_ok body = true ->
  obind (py_get (PDict body) (lit "weather") (PList [PDict []])) (fun l =>
    obind (py_getitem_int l 0) (fun e => py_get (py_or e (PDict [])) inner PNone))
  = Ret (first_weather_field body inner).
Proof.
  unfold weather_list_ok, first_weather_field, py_get at 1, obind at 1.
  destruct (dict_lookup body (PStr (lit "weather"))) as [[| | | | |l|]|];
    try discriminate; [|reflexivity].
  destruct l as [|[| | | | | |m] l]; try discriminate; intros _; [reflexivity|].
  destruct m; reflexivity.
Qed.

Lemma weather_record_known_shape city body :
  known_shape body = true ->
  weather_record city (PDict body)
  = Ret [ (PStr (lit "city"), PStr city);
          (PStr (lit "temp_c"), sub_field body (lit "main") (lit "temp"));
          (PStr (lit "feels_like_c"), sub_field body (lit "main") (lit "feels_like"));
          (PStr (lit "humidity"), sub_field body (lit "main") (lit "humidity"));
          (PStr (lit "desc"), first_weather_field body (lit "description"));
          (PStr (lit "wind_mps"), sub_field body (lit "wind") (lit "speed"));
          (PStr (lit "icon"), first_weather_field body (lit "icon")) ].
Proof.
  unfold known_shape. rewrite !andb_true_iff. intros [[Hmain Hwind] Hlist].
  unfold weather_record.
  rewrite !(nested_get body (lit "main")) by exact Hmain. cbn [obind].
  rewrite (first_weather_get body (lit "description")) by exact Hlist. cbn [obind].
  rewrite (nested_get body (lit "wind")) by exact Hwind. cbn [obind].
  rewrite (first_weather_get body (lit "icon")) by exact Hlist. reflexivity.
Qed.

(** C3, as the code has it. A 200 response whose body is a JSON object of
    the known shape (see [known_shape]) gives a record: [city] is the
    argument, and every other entry is the value found under its path in the
    body, or [None] when the path is missing - for that entry only. *)
Theorem weather_200_known_shape_is_present (w : World) (st : state)
    (city key : pystr) (r : http_response) (body : pydict) :
  key <> [] ->
  cache_live weather_ttl weather_cache st (city, key) = None ->
  http_answer w (length (net_log st)) (weather_request city key) = Answered r ->
  status_code r = 200 ->
  json r = Answered (PDict body) ->
  known_shape body = true ->
  fst (get_weather w city key st)
  = Ret (Some
      [ (PStr (lit "city"), PStr city);
        (PStr (lit "temp_c"), sub_field body (lit "main") (lit "temp"));
        (PStr (lit "feels_like_c"), sub_field body (lit "main") (lit "feels_like"));
        (PStr (lit "humidity"), sub_field body (lit "main") (lit "humidity"));
        (PStr (lit "desc"), first_weather_field body (lit "description"));
        (PStr (lit "wind_mps"), sub_field body (lit "wind") (lit "speed"));
        (PStr (lit "icon"), first_weather_field body (lit "icon")) ]).
Proof.
  intros Hkey Hlive Hans Hstatus Hjson Hshape.
  pose proof (get_weather_run w city key st) as Hrun. rewrite Hlive in Hrun.
  destruct Hrun as (st' & -> & _). cbn [fst]. do 2 f_equal.
  unfold fetched_weather. destruct key as [|c key]; [congruence|]. cbn [str_truthy].
  rewrite Hans. unfold weather_of_answer. rewrite Hstatus, Hjson. cbn [Z.eqb Pos.eqb].
  now rewrite weather_record_known_shape.
Qed.

Lemma weather_200_known_shape_witness :
  fst (get_weather (scripted_world (ok_json (PDict busan_body)) (Failed []) 0)
         (lit "Seoul") (lit "key") (initial_state 0))
  = Ret (Some
      [ (PStr (lit "city"), PStr (lit "Seoul"));
        (PStr (lit "temp_c"), PInt 3);
        (PStr (lit "feels_like_c"), PNone);
        (PStr (lit "humidity"), PInt 40);
        (PStr (lit "desc"), PStr (lit "맑음"));
        (PStr (lit "wind_mps"), PNone);
        (PStr (lit "icon"), PNone) ]).
Proof.
  apply (weather_200_known_shape_is_present
           (scripted_world (ok_json (PDict busan_body)) (Failed []) 0)
           (initial_state 0) (lit "Seoul") (lit "key")
           (HttpResponse 200 (Answered (PDict busan_body))) busan_body);
    solve [discriminate | reflexivity].
Defined.

(** C3 as stated fails: a 200 response whose body is not JSON, and a 200
    response whose JSON object has an empty [weather] array, both make the
    whole record absent. *)
Lemma weather_200_absent_counterexample :
  fst (get_weather
         (scripted_world (Answered (HttpResponse 200 (Failed (lit "Expecting value"))))
            (Failed []) 0)
         (lit "Seoul") (lit "key") (initial_state 0)) = Ret None
  /\ fst (get_weather
            (scripted_world (ok_json (PDict [(PStr (lit "weather"), PList [])]))
               (Failed []) 0)
            (lit "Seoul") (lit "key") (initial_state 0)) = Ret None.
Proof. split; reflexivity. Qed.

(** ** The weather cache *)

Lemma cache_live_after_store (st : state) (city key : pystr) (stored t : Z)
    (v : option pydict) :
  weather_cache st !! (city, key) = Some (stored, v) ->
  t < stored + weather_ttl ->
  cache_live weather_ttl weather_cache (set_clock t st) (city, key) = Some v.
Proof.
  intros Hlook Ht. unfold cache_live. cbn [set_clock weather_cache clock].
  rewrite Hlook. now rewrite bool_decide_eq_true_2.
Qed.

Lemma get_weather_log_growth (w : World) (city key : pystr) (st : state) :
  exists calls, net_log (snd (get_weather w city key st)) = net_log st ++ calls
                /\ (length calls <= 1)%nat.
Proof.
  pose proof (get_weather_run w city key st) as Hrun.
  destruct (cache_live weather_ttl weather_cache st (city, key)) as [v|].
  - exists []. rewrite Hrun. cbn [snd]. split; [now rewrite app_nil_r | cbn; lia].
  - destruct Hrun as (st' & -> & _ & _ & _ & Hlog). cbn [snd]. rewrite Hlog.
    destruct (str_truthy key).
    + eexists. split; [reflexivity | cbn; lia].
    + exists []. split; [now rewrite app_nil_r | cbn; lia].
Qed.

(** C6, as the code has it. The cache is keyed by the pair of arguments
    [(city, api_key)]. Two calls with the same city and the same key, the
    second less than 600 seconds after the first, issue at most one network
    call between them; and when the first call was not served from the
    cache, the second returns the result the first one stored and issues no
    network call. *)
Theorem weather_cache_same_city_and_key (w : World) (st : state)
    (city key : pystr) (t2 : Z) :
  clock st <= t2 < clock st + 600 ->
  let first := get_weather w city key st in
  let second := get_weather w city key (set_clock t2 (snd first)) in
  (length (net_log (snd second)) <= length (net_log st) + 1)%nat
  /\ (cache_live weather_ttl weather_cache st (city, key) = None ->
      fst second = fst first /\ net_log (snd second) = net_log (snd first)).
Proof.
  intros Ht first second. subst first second.
  pose proof (get_weather_run w city key st) as Hrun.
  destruct (cache_live weather_ttl weather_cache st (city, key)) as [v|] eqn:Hlive.
  - rewrite Hrun. cbn [snd]. split; [|discriminate].
    destruct (get_weather_log_growth w city key (set_clock t2 st))
      as (calls & -> & Hcalls).
    cbn [set_clock net_log]. rewrite length_app. lia.
  - destruct Hrun as (st' & -> & Hclock & Hwc & _ & Hlog). cbn [snd fst].
    assert (Hhit : cache_live weather_ttl weather_cache (set_clock t2 st') (city, key)
                   = Some (fetched_weather w city key st)).
    { apply (cache_live_after_store st' city key (clock st)).
      - rewrite Hwc. apply lookup_insert_eq.
      - lia. }
    pose proof (get_weather_run w city key (set_clock t2 st')) as Hrun2.
    rewrite Hhit in Hrun2. rewrite Hrun2. cbn [snd fst set_clock net_log].
    split; [|intros _; split; reflexivity].
    rewrite Hlog. destruct (str_truthy key); [rewrite length_app; cbn; lia | lia].
Qed.

Lemma weather_cache_same_city_and_key_witness :
  let w := scripted_world (ok_json (PDict busan_body)) (Failed []) 0 in
  let first := get_weather w (lit "Seoul") (lit "key") (initial_state 0) in
  let second := get_weather w (lit "Seoul") (lit "key") (set_clock 599 (snd first)) in
  (length (net_log (snd second)) <= 1)%nat
  /\ fst second = fst first.
Proof.
  intros w first second.
  destruct (weather_cache_same_city_and_key w (initial_state 0)
              (lit "Seoul") (lit "key") 599) as (Hcount & Hsame).
  - cbn. lia.
  - split; [exact Hcount|]. now apply Hsame.
Defined.

(** C6 as stated fails: two calls for the same city with different keys,
    at the same instant, issue two network calls. *)
Lemma weather_cache_keyed_by_city_counterexample :
  let w := scripted_world (ok_json (PDict busan_body)) (Failed []) 0 in
  let first := get_weather w (lit "Seoul") (lit "key-1") (initial_state 0) in
  let second := get_weather w (lit "Seoul") (lit "key-2") (snd first) in
  net_log (snd second)
  = [ HttpGet (weather_request (lit "Seoul") (lit "key-1"));
      HttpGet (weather_request (lit "Seoul") (lit "key-2")) ].
Proof. vm_compute. reflexivity. Qed.

(** ** The creature fetch *)

Lemma pokemon_record_dex j p :
  pokemon_record j = Ret p ->
  py_get j (lit "id") PNone = Ret (dict_get p (lit "dex")).
Proof.
  unfold pokemon_record. destruct j as [| | | | | |d]; try discriminate.
  cbn [py_get obind]. intros Hrec. unfold obind in Hrec.
  repeat match type of Hrec with
  | match ?x with _ => _ end = _ => destruct x; try discriminate
  end.
  inversion Hrec. reflexivity.
Qed.

(** C2, as the code has it. The identifier is drawn among the integers of
    [1..151], each as likely as the others, and one request is sent for it;
    a call not served from the cache returns [None] or a record whose [dex]
    entry is the [id] entry of the response body ([None] when the body has
    none) - hence the drawn identifier when the service reports it. *)
Theorem pokemon_index_is_response_id (w : World) (st : state) :
  cache_live pokemon_ttl pokemon_cache st tt = None ->
  let pid := drawn_id w st in
  fst (random_randint w 1 151 st) = Ret pid
  /\ (List.NoDup (randint_outcomes 1 151)
      /\ forall z, In z (randint_outcomes 1 151) <-> 1 <= z <= 151)
  /\ In pid (randint_outcomes 1 151)
  /\ net_log (snd (get_pokemon w st)) = net_log st ++ [HttpGet (pokemon_request pid)]
  /\ (fst (get_pokemon w st) = Ret None
      \/ exists r j p,
           http_answer w (length (net_log st)) (pokemon_request pid) = Answered r
           /\ status_code r = 200
           /\ json r = Answered j
           /\ fst (get_pokemon w st) = Ret (Some p)
           /\ py_get j (lit "id") PNone = Ret (dict_get p (lit "dex"))
           /\ (py_get j (lit "id") PNone = Ret (PInt pid) ->
               dict_get p (lit "dex") = PInt pid)).
Proof.
  intros Hlive pid.
  destruct randint_outcomes_uniform as (Hnodup & _ & Hin).
  split; [now rewrite random_randint_run|].
  split; [now split|].
  split; [apply Hin, drawn_id_range|].
  pose proof (get_pokemon_run w st) as Hrun. rewrite Hlive in Hrun.
  destruct Hrun as (st' & Hrun & _ & _ & _ & Hlog). rewrite Hrun. cbn [fst snd].
  split; [exact Hlog|].
  fold pid. unfold pokemon_of_answer.
  destruct (http_answer w (length (net_log st)) (pokemon_request pid)) as [descr|r];
    [now left|].
  destruct (status_code r =? 200) eqn:Hstatus; [|now left].
  destruct (json r) as [descr|j] eqn:Hjson; [now left|].
  destruct (pokemon_record j) as [p|e] eqn:Hrec; [|now left].
  right. exists r, j, p. apply Z.eqb_eq in Hstatus.
  pose proof (pokemon_record_dex j p Hrec) as Hdex.
  repeat split; try assumption; try reflexivity.
  intros Hid. rewrite Hid in Hdex. now inversion Hdex.
Qed.

Lemma pokemon_index_witness :
  let w := scripted_world
             (ok_json (PDict [(PStr (lit "id"), PInt 7); (PStr (lit "name"), PStr (lit "squirtle"))]))
             (Failed []) 6 in
  drawn_id w (initial_state 0) = 7
  /\ exists p, fst (get_pokemon w (initial_state 0)) = Ret (Some p)
               /\ dict_get p (lit "dex") = PInt 7.
Proof.
  intros w. split; [reflexivity|].
  destruct (pokemon_index_is_response_id w (initial_state 0) eq_refl)
    as (_ & _ & _ & _ & [Hnone | (r & j & p & Hans & _ & Hjson & Hret & _ & Hdex)]).
  - discriminate Hnone.
  - exists p. split; [exact Hret|]. apply Hdex.
    inversion Hans; subst r. inversion Hjson; subst j. reflexivity.
Defined.

(** C2 as stated fails: the generator draws 7, the service answers the
    request with a body whose [id] is 8, and the record carries 8. *)
Lemma pokemon_index_counterexample :
  let w := scripted_world
             (ok_json (PDict [(PStr (lit "id"), PInt 8); (PStr (lit "name"), PStr (lit "wartortle"))]))
             (Failed []) 6 in
  fst (random_randint w 1 151 (initial_state 0)) = Ret 7
  /\ exists p, fst (get_pokemon w (initial_state 0)) = Ret (Some p)
               /\ dict_get p (lit "dex") = PInt 8
               /\ dict_get p (lit "dex") <> PInt 7.
Proof.
  intros w. split; [reflexivity|].
  eexists. split; [reflexivity|]. split; [reflexivity | discriminate].
Qed.

(** ** The report composer *)

Lemma occurs_in_refl (s : pystr) : occurs_in s s.
Proof. exists [], []. now rewrite app_nil_r. Qed.

Lemma occurs_in_head (sub post : pystr) : occurs_in sub (sub ++ post).
Proof. now exists [], post. Qed.

Lemma occurs_in_prefix (sub post s : pystr) : s = sub ++ post -> occurs_in sub s.
Proof. intros ->. apply occurs_in_head. Qed.

Lemma occurs_in_skip (x sub s : pystr) : occurs_in sub s -> occurs_in sub (x ++ s).
Proof.
  intros (pre & post & ->). exists (x ++ pre), post. now rewrite <- app_assoc.
Qed.

Ltac list_norm := repeat rewrite <- app_assoc.

(** Finds a block among the pieces of a concatenation, comparing pieces
    as they are written. *)
Ltac block_here :=
  eapply occurs_in_prefix; repeat rewrite <- app_assoc; reflexivity.

Ltac find_block :=
  list_norm;
  lazymatch goal with
  | |- occurs_in ?sub ?s =>
    first
      [ constr_eq sub s; apply occurs_in_refl
      | lazymatch sub with
        | ?a ++ _ => lazymatch s with ?b ++ _ => constr_eq a b; block_here end
        end
      | apply occurs_in_skip; find_block ]
  end.


Lemma all_strings_map names : all_strings (map PStr names) = Some names.
Proof.
  induction names as [|n names IH]; [reflexivity|].
  cbn [map all_strings]. now rewrite IH.
Qed.


(** [join] writes its items one after the other, the separator between
    neighbours. *)
Lemma str_join_listed (sep : pystr) (items : list pystr) :
  str_join sep items = listed sep items.
Proof.
  induction items as [|x items IH]; [reflexivity|].
  destruct items as [|y items].
  - cbn [str_join listed map concat]. now rewrite app_nil_r.
  - change (str_join sep (x :: y :: items)) with (x ++ sep ++ str_join sep (y :: items)).
    rewrite IH. cbn [listed map concat]. now rewrite <- app_assoc.
Qed.


Lemma py_join_names (sep : pystr) (v : pyval) (names : list pystr) :
  py_iter v = Ret (map PStr names) -> py_join sep v = Ret (listed sep names).
Proof.
  intros Hv. unfold py_join. rewrite Hv. cbn [obind].
  now rewrite all_strings_map, str_join_listed.
Qed.

(** ** Integers and other values written into a text *)

Lemma utf8_decode_ascii (bs : list N) :
  forallb (fun c => (c <? 128)%N) bs = true -> utf8_decode bs = bs.
Proof.
  induction bs as [|b bs IH]; [reflexivity|].
  cbn [forallb utf8_decode]. intros [Hb Hbs]%andb_prop.
  rewrite Hb. f_equal. now apply IH.
Qed.

Lemma string_of_uint_ascii (d : Decimal.uint) :
  forallb (fun c => (c <? 128)%N)
    (map N_of_ascii (list_ascii_of_string (NilEmpty.string_of_uint d))) = true.
Proof.
  induction d; cbn [NilEmpty.string_of_uint list_ascii_of_string map forallb];
    try rewrite IHd; reflexivity.
Qed.

Lemma string_of_int_ascii (d : Decimal.signed_int) :
  forallb (fun c => (c <? 128)%N)
    (map N_of_ascii (list_ascii_of_string (NilEmpty.string_of_int d))) = true.
Proof.
  destruct d as [d|d]; cbn [NilEmpty.string_of_int list_ascii_of_string map forallb];
    rewrite string_of_uint_ascii; reflexivity.
Qed.

Lemma ascii_round_trip (s : string) :
  string_of_list_ascii (map ascii_of_N (map N_of_ascii (list_ascii_of_string s))) = s.
Proof.
  induction s as [|a s IH]; [reflexivity|].
  cbn [list_ascii_of_string map string_of_list_ascii].
  now rewrite ascii_N_embedding, IH.
Qed.

Lemma str_of_Z_ascii (z : Z) :
  str_of_Z z = map N_of_ascii (list_ascii_of_string (NilEmpty.string_of_int (Z.to_int z))).
Proof. unfold str_of_Z, lit. apply utf8_decode_ascii, string_of_int_ascii. Qed.

(** What [str] writes for an integer is the decimal numeral of that
    integer. *)
Lemma decimal_value_str_of_Z (z : Z) : decimal_value (str_of_Z z) = Some z.
Proof.
  unfold decimal_value. rewrite str_of_Z_ascii, string_of_int_ascii, ascii_round_trip.
  rewrite NilEmpty.isi.
  assert (Hnorm : Decimal.norm (Z.to_int z) = Z.to_int z).
  { rewrite <- (DecimalZ.of_to z) at 2. now rewrite DecimalZ.to_of. }
  rewrite Hnorm.
  assert (Hrefl : Decimal.int_beq (Z.to_int z) (Z.to_int z) = true)
    by (apply Decimal.internal_signed_int_dec_lb; reflexivity).
  rewrite Hrefl. now rewrite DecimalZ.of_to.
Qed.

Lemma ascii_code_round_trip (s : pystr) :
  forallb (fun c => (c <? 128)%N) s = true ->
  map N_of_ascii (map ascii_of_N s) = s.
Proof.
  induction s as [|c s IH]; [reflexivity|].
  cbn [forallb map]. intros [Hc Hs]%andb_prop. f_equal; [|now apply IH].
  apply N_ascii_embedding. apply N.ltb_lt in Hc. lia.
Qed.

Lemma list_ascii_round_trip (l : list ascii) :
  list_ascii_of_string (string_of_list_ascii l) = l.
Proof. induction l as [|a l IH]; [reflexivity|]. cbn. now rewrite IH. Qed.

(** A numeral denotes one integer, and an integer has one numeral. *)
Lemma decimal_value_exact (s : pystr) (z : Z) :
  decimal_value s = Some z <-> s = str_of_Z z.
Proof.
  split; [|intros ->; apply decimal_value_str_of_Z].
  unfold decimal_value.
  destruct (forallb (fun c => (c <? 128)%N) s) eqn:Hascii; [|discriminate].
  destruct (NilEmpty.int_of_string _) as [d|] eqn:Hd; [|discriminate].
  destruct (Decimal.int_beq (Decimal.norm d) d) eqn:Hnorm; [|discriminate].
  intros Hz. apply Decimal.internal_signed_int_dec_bl in Hnorm.
  assert (Hzd : Z.of_int d = z) by congruence.
  apply NilEmpty.sis in Hd.
  rewrite str_of_Z_ascii, <- Hzd, DecimalZ.to_of, Hnorm, Hd.
  now rewrite list_ascii_round_trip, ascii_code_round_trip.
Qed.


Lemma py_str_of_int_short (z : Z) :
  (int_digits z <= int_max_str_digits)%nat -> py_str_of_int z = Ret (str_of_Z z).
Proof.
  intros Hz. unfold py_str_of_int. now apply Nat.leb_le in Hz as ->.
Qed.



(** [repr] raises for one reason only: an integer too long to convert. *)
Lemma py_repr_raises (w : World) :
  forall (v : pyval) (e : exn), py_repr w v = Raise e -> e = ValueError.
Proof.
  fix IH 1. intros v. destruct v as [ | [|] | z | f | x | l | d]; intros e H;
    cbn [py_repr] in H; try discriminate H.
  - unfold py_str_of_int in H.
    destruct (Nat.leb (int_digits z) int_max_str_digits); congruence.
  - match type of H with
    | obind (?items l) _ = _ =>
      assert (Hitems : forall e', items l = Raise e' -> e' = ValueError)
    end.
    { clear H e. induction l as [|x l IHl]; intros e' Hparts; [discriminate Hparts|].
      destruct (py_repr w x) as [sx|ex] eqn:Hx.
      - cbn [obind] in Hparts.
        match type of Hparts with
        | obind ?rest _ = _ => destruct rest as [ps|er] eqn:Hrest
        end; [discriminate Hparts|].
        cbn [obind] in Hparts. apply IHl. congruence.
      - cbn [obind] in Hparts. rewrite <- (IH x ex Hx). congruence. }
    match type of H with
    | obind ?r _ = _ => destruct r as [parts|er]; [discriminate H|]
    end.
    cbn [obind] in H. apply Hitems. congruence.
  - match type of H with
    | obind (?entries d) _ = _ =>
      assert (Hentries : forall e', entries d = Raise e' -> e' = ValueError)
    end.
    { clear H e. induction d as [|[k x] d IHd]; intros e' Hparts; [discriminate Hparts|].
      destruct (py_repr w k) as [ks|ek] eqn:Hk.
      - cbn [obind] in Hparts. destruct (py_repr w x) as [xs|ex] eqn:Hx.
        + cbn [obind] in Hparts.
          match type of Hparts with
          | obind ?rest _ = _ => destruct rest as [ps|er] eqn:Hrest
          end; [discriminate Hparts|].
          cbn [obind] in Hparts. apply IHd. congruence.
        + cbn [obind] in Hparts. rewrite <- (IH x ex Hx). congruence.
      - cbn [obind] in Hparts. rewrite <- (IH k ek Hk). congruence. }
    match type of H with
    | obind ?r _ = _ => destruct r as [parts|er]; [discriminate H|]
    end.
    cbn [obind] in H. apply Hentries. congruence.
Qed.

Lemma py_str_raises (w : World) (v : pyval) (e : exn) :
  py_str w v = Raise e -> e = ValueError.
Proof. destruct v; cbn [py_str]; try apply py_repr_raises. discriminate. Qed.

(** ** The user-content block *)






(** A block whose first line starts, and whose last line ends, with a
    character that is not whitespace loses the line breaks around it, and
    nothing else. *)
Lemma strip_text_block a first middle last b :
  is_space a = false -> is_space b = false ->
  strip (text_block ((a :: first) :: middle ++ [last ++ [b]]))
  = (a :: first) ++ nl ++ concat (map (fun l => l ++ nl) middle) ++ last ++ [b].
Proof.
  intros Ha Hb. unfold text_block.
  cbn [map concat]. rewrite map_app, concat_app. cbn [map concat].
  rewrite app_nil_r.
  transitivity (strip (nl ++ (a :: first ++ nl ++ concat (map (fun l => l ++ nl) middle) ++ last)
                          ++ [b] ++ nl)).
  - f_equal. f_equal. rewrite <- !app_comm_cons, <- !app_assoc. reflexivity.
  - rewrite strip_block by assumption. rewrite <- !app_comm_cons, <- !app_assoc.
    reflexivity.
Qed.

(** The lines of the literal, without the line breaks around them. *)
Lemma payload_lines (ht m wt pt : pystr) :
  strip (text_block
    [ lit "[오늘 체크인]";
      lit "- 완료한 습관: " ++ ht;
      lit "- 기분(1~10): " ++ m;
      [];
      lit "[날씨]";
      wt;
      [];
      lit "[포켓몬]";
      pt;
      [];
      lit "주의:";
      lit "- 포켓몬/날씨 정보가 없으면, 없는 상태에서도 설득력 있게 리포트를 작성해라." ])
  = lit "[오늘 체크인]" ++ nl ++
    lit "- 완료한 습관: " ++ ht ++ nl ++
    lit "- 기분(1~10): " ++ m ++ nl ++
    nl ++
    lit "[날씨]" ++ nl ++
    wt ++ nl ++
    nl ++
    lit "[포켓몬]" ++ nl ++
    pt ++ nl ++
    nl ++
    lit "주의:" ++ nl ++
    lit "- 포켓몬/날씨 정보가 없으면, 없는 상태에서도 설득력 있게 리포트를 작성해라.".
Proof.
  assert (Hfirst : lit "[오늘 체크인]" = 91%N :: lit "오늘 체크인]")
    by (vm_compute; reflexivity).
  assert (Hlast : lit "- 포켓몬/날씨 정보가 없으면, 없는 상태에서도 설득력 있게 리포트를 작성해라."
                  = lit "- 포켓몬/날씨 정보가 없으면, 없는 상태에서도 설득력 있게 리포트를 작성해라"
                    ++ [46%N]) by (vm_compute; reflexivity).
  rewrite Hfirst, Hlast.
  match goal with
  | |- strip (text_block [?l1; ?l2; ?l3; ?l4; ?l5; ?l6; ?l7; ?l8; ?l9; ?l10; ?l11; ?l12]) = _ =>
    change [l1; l2; l3; l4; l5; l6; l7; l8; l9; l10; l11; l12]
      with (l1 :: [l2; l3; l4; l5; l6; l7; l8; l9; l10; l11] ++ [l12])
  end.
  rewrite strip_text_block by reflexivity.
  cbn [map concat]. rewrite app_nil_r, <- !app_comm_cons. list_norm.
  rewrite !app_nil_l. reflexivity.
Qed.

(** The block is built once its three parts are. *)
Lemma user_payload_built w habits mood weather pokemon wt pt m :
  weather_text w weather = Ret wt ->
  pokemon_text w pokemon = Ret pt ->
  py_str_of_int mood = Ret m ->
  user_payload w habits mood weather pokemon
  = Ret (lit "[오늘 체크인]" ++ nl ++
         lit "- 완료한 습관: " ++ habits_text habits ++ nl ++
         lit "- 기분(1~10): " ++ m ++ nl ++
         nl ++
         lit "[날씨]" ++ nl ++
         wt ++ nl ++
         nl ++
         lit "[포켓몬]" ++ nl ++
         pt ++ nl ++
         nl ++
         lit "주의:" ++ nl ++
         lit "- 포켓몬/날씨 정보가 없으면, 없는 상태에서도 설득력 있게 리포트를 작성해라.").
Proof.
  intros Hwt Hpt Hm. unfold user_payload. rewrite Hwt, Hpt, Hm. cbn [obind].
  f_equal. apply payload_lines.
Qed.


(** The assembly of the block stops only where [join] meets something that
    is not a string, or where an integer is too long to be converted. *)
Lemma user_payload_raises w habits mood weather pokemon e :
  user_payload w habits mood weather pokemon = Raise e ->
  e = TypeError \/ e = ValueError.
Proof.
  unfold user_payload. intros H.
  destruct (weather_text w weather) as [wt|ew] eqn:Hwt.
  - cbn [obind] in H. destruct (pokemon_text w pokemon) as [pt|ep] eqn:Hpt.
    + cbn [obind] in H. right. unfold py_str_of_int in H.
      destruct (Nat.leb (int_digits mood) int_max_str_digits);
        cbn [obind] in H; [discriminate H | congruence].
    + cbn [obind] in H. assert (e = ep) by congruence. subst ep. clear H.
      unfold pokemon_text in Hpt. destruct (opt_truthy pokemon); [|discriminate Hpt].
      destruct (py_str w _) as [name|e1] eqn:H1 in Hpt;
        [cbn [obind] in Hpt | right; apply py_str_raises in H1; cbn [obind] in Hpt; congruence].
      destruct (py_str w _) as [dex|e2] eqn:H2 in Hpt;
        [cbn [obind] in Hpt | right; apply py_str_raises in H2; cbn [obind] in Hpt; congruence].
      destruct (py_join _ _) as [types|e3] eqn:H3 in Hpt.
      * cbn [obind] in Hpt.
        destruct (py_str w _) as [stats|e4] eqn:H4 in Hpt;
          [discriminate Hpt | right; apply py_str_raises in H4; cbn [obind] in Hpt; congruence].
      * cbn [obind] in Hpt. left. assert (e = e3) by congruence. subst e3.
        unfold py_join in H3. destruct (py_iter _) as [items|ei] eqn:Hi.
        -- cbn [obind] in H3. destruct (all_strings items); congruence.
        -- cbn [obind] in H3. unfold py_iter in Hi.
           destruct (type_items _); congruence.
  - cbn [obind] in H. right. assert (e = ew) by congruence. subst ew. clear H.
    unfold weather_text in Hwt. destruct (opt_truthy weather); [|discriminate Hwt].
    repeat match type of Hwt with
    | obind ?a _ = Raise _ =>
      let E := fresh "E" in
      destruct a as [?|?] eqn:E;
        [cbn [obind] in Hwt | apply py_str_raises in E; cbn [obind] in Hwt; congruence]
    end.
    discriminate Hwt.
Qed.

Lemma generate_report_empty_key w style habits mood weather pokemon st :
  generate_report w [] style habits mood weather pokemon st
  = (Ret (None, Some (lit "OpenAI API Key가 필요합니다.")), st).
Proof. reflexivity. Qed.

Lemma missing_key_message_not_empty : lit "OpenAI API Key가 필요합니다." <> [].
Proof.
  assert (H : lit "OpenAI API Key가 필요합니다." = 79%N :: lit "penAI API Key가 필요합니다.")
    by (vm_compute; reflexivity).
  rewrite H. discriminate.
Qed.

Lemma generate_report_run w key style habits mood weather pokemon payload st :
  key <> [] ->
  user_payload w habits mood weather pokemon = Ret payload ->
  generate_report w key style habits mood weather pokemon st
  = (Ret match openai_answer w (length (net_log st)) (report_request key style payload) with
         | Answered resp => (Some (strip (default [] (output_text resp))), None)
         | Failed descr => (None, Some (lit "OpenAI 호출 실패: " ++ descr))
         end,
     log_call (OpenAICreate (report_request key style payload)) st).
Proof.
  intros Hkey Hpayload. destruct key as [|c key]; [congruence|].
  unfold generate_report. cbn [str_truthy negb]. unfold bind, lift.
  rewrite Hpayload. unfold call_openai.
  destruct (openai_answer w _ _); reflexivity.
Qed.

(** An exception of the assembly leaves the composer: the block is built
    before the [try] block is entered. *)
Lemma generate_report_raises w key style habits mood weather pokemon e st :
  key <> [] ->
  user_payload w habits mood weather pokemon = Raise e ->
  generate_report w key style habits mood weather pokemon st = (Raise e, st).
Proof.
  intros Hkey Hpayload. destruct key as [|c key]; [congruence|].
  unfold generate_report. cbn [str_truthy negb]. unfold bind, lift.
  now rewrite Hpayload.
Qed.



Lemma failure_prefix_not_empty descr : lit "OpenAI 호출 실패: " ++ descr <> [].
Proof.
  assert (H : lit "OpenAI 호출 실패: " = 79%N :: lit "penAI 호출 실패: ")
    by (vm_compute; reflexivity).
  rewrite H. discriminate.
Qed.

(** C5. For every input with a non-empty key and every user-content block
    the composer builds for it: an exception of the generation client,
    transport or service, is caught and returned as the error string
    [OpenAI 호출 실패: ] followed by the description of the failure, next to
    no text; an answer is returned as its text without the whitespace at
    either end, and with nothing else removed, next to no error. *)
Theorem report_errors_are_described (w : World) (st : state)
    (key style : pystr) (habits : list pystr) (mood : Z)
    (weather pokemon : option pydict) (payload : pystr) :
  key <> [] ->
  user_payload w habits mood weather pokemon = Ret payload ->
  let answer := openai_answer w (length (net_log st))
                  (report_request key style payload) in
  let result := fst (generate_report w key style habits mood weather pokemon st) in
  (forall descr, answer = Failed descr ->
     result = Ret (None, Some (lit "OpenAI 호출 실패: " ++ descr))
     /\ occurs_in descr (lit "OpenAI 호출 실패: " ++ descr))
  /\ (forall resp, answer = Answered resp ->
        exists text,
          result = Ret (Some text, None)
          /\ trimmed text
          /\ exists pre post,
               all_space pre /\ all_space post
               /\ default [] (output_text resp) = pre ++ text ++ post).
Proof.
  intros Hkey Hpayload answer result. subst answer result.
  rewrite (generate_report_run w key style habits mood weather pokemon payload st Hkey Hpayload).
  cbn [fst]. split.
  - intros descr ->. split; [reflexivity|]. exists (lit "OpenAI 호출 실패: "), [].
    now rewrite app_nil_r.
  - intros resp ->. exists (strip (default [] (output_text resp))).
    split; [reflexivity|]. apply strip_spec.
Qed.

Lemma report_errors_witness :
  user_payload unreachable_world [lit "물 마시기"; lit "수면"] 9
    (Some seoul_weather) (Some squirtle) = Ret sample_payload
  /\ fst (generate_report unreachable_world (lit "sk-test") (lit "따뜻한 멘토")
            [lit "물 마시기"; lit "수면"] 9 (Some seoul_weather) (Some squirtle)
            (initial_state 0))
     = Ret (None, Some (lit "OpenAI 호출 실패: " ++ lit "connection refused")).
Proof.
  assert (Hbuilt : user_payload unreachable_world [lit "물 마시기"; lit "수면"] 9
                     (Some seoul_weather) (Some squirtle) = Ret sample_payload)
    by (vm_compute; reflexivity).
  split; [exact Hbuilt|].
  destruct (report_errors_are_described unreachable_world (initial_state 0)
              (lit "sk-test") (lit "따뜻한 멘토") [lit "물 마시기"; lit "수면"] 9
              (Some seoul_weather) (Some squirtle) sample_payload)
    as (Hfailed & _).
  - discriminate.
  - exact Hbuilt.
  - apply (Hfailed (lit "connection refused")). reflexivity.
Defined.

(** Whatever [generate_report] returns is a pair with exactly one side: a
    text and no error, or no text and a non-empty error string. *)
Lemma returned_pair_is_one_sided (w : World) (st : state)
    (key style : pystr) (habits : list pystr) (mood : Z)
    (weather pokemon : option pydict) (res : option pystr * option pystr) :
  fst (generate_report w key style habits mood weather pokemon st) = Ret res ->
  one_sided res.
Proof.
  intros Hres. destruct key as [|c key].
  - rewrite generate_report_empty_key in Hres. cbn [fst] in Hres.
    assert (Hr : res = (None, Some (lit "OpenAI API Key가 필요합니다."))) by congruence.
    right. eexists. split; [exact Hr | apply missing_key_message_not_empty].
  - destruct (user_payload w habits mood weather pokemon) as [payload|e] eqn:Hpayload.
    + rewrite (generate_report_run w (c :: key) style habits mood weather pokemon
                 payload st) in Hres by (discriminate || exact Hpayload).
      cbn [fst] in Hres.
      match type of Hres with Ret ?r = _ => assert (Hr : res = r) by congruence end.
      rewrite Hr. destruct (openai_answer w _ _) as [descr|resp].
      * right. eexists. split; [reflexivity | apply failure_prefix_not_empty].
      * left. eexists. reflexivity.
    + rewrite (generate_report_raises w (c :: key) style habits mood weather pokemon
                 e st) in Hres by (discriminate || exact Hpayload).
      discriminate Hres.
Qed.

(** The composer returns, with a non-empty key, exactly when the block is
    built; otherwise the exception of the assembly, a [TypeError] of [join]
    or a [ValueError] of an integer conversion, leaves the function. *)
Lemma generate_report_returns_or_raises (w : World) (st : state)
    (key style : pystr) (habits : list pystr) (mood : Z)
    (weather pokemon : option pydict) :
  (exists res st', generate_report w key style habits mood weather pokemon st = (Ret res, st')
                   /\ one_sided res)
  \/ (key <> []
      /\ exists e, user_payload w habits mood weather pokemon = Raise e
           /\ (e = TypeError \/ e = ValueError)
           /\ generate_report w key style habits mood weather pokemon st = (Raise e, st)).
Proof.
  destruct key as [|c key].
  - left. eexists _, _. split; [apply generate_report_empty_key|].
    right. eexists. split; [reflexivity | apply missing_key_message_not_empty].
  - destruct (user_payload w habits mood weather pokemon) as [payload|e] eqn:Hpayload.
    + left. eexists _, _. split.
      * apply (generate_report_run w (c :: key) style habits mood weather pokemon payload st);
          [discriminate | exact Hpayload].
      * destruct (openai_answer w _ _) as [descr|resp].
        -- right. eexists. split; [reflexivity | apply failure_prefix_not_empty].
        -- left. eexists. reflexivity.
    + right. split; [discriminate|]. exists e. split; [reflexivity|]. split.
      * now apply (user_payload_raises w habits mood weather pokemon).
      * apply generate_report_raises; [discriminate | exact Hpayload].
Qed.

(** The composer outside its contract: with a number among the creature's
    types, [join] raises before the [try] block and the exception leaves
    [generate_report]. *)
Lemma report_raises_on_odd_creature :
  fst (generate_report unreachable_world (lit "sk-test") (lit "따뜻한 멘토")
         [] 6 None (Some odd_creature) (initial_state 0))
  = Raise TypeError.
Proof. vm_compute. reflexivity. Qed.

(** A mood of 4301 digits cannot be written into the block: the conversion
    raises before the [try] block. *)
Lemma report_raises_on_long_mood :
  user_payload unreachable_world [] (10 ^ 4300) None None = Raise ValueError
  /\ user_payload unreachable_world [] (10 ^ 4300 - 1) None None <> Raise ValueError.
Proof.
  split.
  - vm_compute. reflexivity.
  - unfold user_payload. cbn [weather_text pokemon_text opt_truthy obind].
    assert (Hm : py_str_of_int (10 ^ 4300 - 1) = Ret (str_of_Z (10 ^ 4300 - 1)))
      by (apply py_str_of_int_short; vm_compute; apply le_n).
    rewrite Hm. discriminate.
Qed.

(** C9. The composer does not return a pair for every input: a creature
    record that [get_pokemon] itself builds, from a body whose second type
    carries no name, makes [join] raise while the block is assembled, before
    the [try] block, and the [TypeError] leaves [generate_report]. *)
Theorem report_raises_for_fetched_creature :
  let w := nameless_type_world in
  let fetched := get_pokemon w (initial_state 0) in
  fst fetched = Ret (Some nameless_type_creature)
  /\ dict_get nameless_type_creature (lit "types") = PList [PStr (lit "water"); PNone]
  /\ generate_report w (lit "sk-test") (lit "따뜻한 멘토") [] 6 None
       (Some nameless_type_creature) (snd fetched)
     = (Raise TypeError, snd fetched).
Proof.
  intros w fetched. split; [|split].
  - subst fetched. pose proof (get_pokemon_run w (initial_state 0)) as Hrun.
    change (cache_live pokemon_ttl pokemon_cache (initial_state 0) ())
      with (@None (option pydict)) in Hrun.
    destruct Hrun as (st' & Hrun & _). rewrite Hrun. cbn [fst].
    vm_compute. reflexivity.
  - vm_compute. reflexivity.
  - apply generate_report_raises.
    + discriminate.
    + vm_compute. reflexivity.
Qed.

(** ** The achievement rate *)

(** The five entries of [habit_state], in catalog order. *)
Lemma habit_state_entries (checkbox : pystr -> bool) :
  habit_state checkbox
  = [ (lit "기상 미션", checkbox (lit "🌅 기상 미션"));
      (lit "물 마시기", checkbox (lit "💧 물 마시기"));
      (lit "공부/독서", checkbox (lit "📚 공부/독서"));
      (lit "운동하기", checkbox (lit "🏃 운동하기"));
      (lit "수면", checkbox (lit "😴 수면")) ].
Proof. vm_compute. reflexivity. Qed.

(** C8. For every way of ticking the five habits of the catalog, the
    achievement rate is 20 times the number of ticked habits; so four
    ticked habits give 80 and none gives 0. *)
Theorem achievement_rate_is_20_per_habit (checkbox : pystr -> bool) :
  let hs := habit_state checkbox in
  (checked_count hs <= 5)%nat
  /\ achv_rate hs = Ret (20 * Z.of_nat (checked_count hs))
  /\ (checked_count hs = 4%nat -> achv_rate hs = Ret 80)
  /\ (checked_count hs = 0%nat -> achv_rate hs = Ret 0).
Proof.
  intros hs. subst hs. rewrite habit_state_entries.
  destruct (checkbox (lit "🌅 기상 미션")), (checkbox (lit "💧 물 마시기")),
           (checkbox (lit "📚 공부/독서")), (checkbox (lit "🏃 운동하기")),
           (checkbox (lit "😴 수면"));
    vm_compute;
    (split; [lia | split; [reflexivity
                          | split; intros Hk; first [discriminate Hk | reflexivity]]]).
Qed.

Lemma achievement_rate_witness :
  let hs := habit_state (fun label => negb (str_eqb label (lit "😴 수면"))) in
  checked_habits hs = [lit "기상 미션"; lit "물 마시기"; lit "공부/독서"; lit "운동하기"]
  /\ achv_rate hs = Ret 80
  /\ achv_rate (habit_state (fun _ => false)) = Ret 0.
Proof.
  split; [vm_compute; reflexivity|]. split.
  - apply (achievement_rate_is_20_per_habit
             (fun label => negb (str_eqb label (lit "😴 수면")))).
    vm_compute. reflexivity.
  - apply (achievement_rate_is_20_per_habit (fun _ => false)).
    vm_compute. reflexivity.
Defined.

(** * Further properties of the code *)

(** ** [safe_get] *)

(** X1. [safe_get] never raises: it issues one request and returns the
    response when there is one, and [None] exactly when [requests.get]
    raised. *)
Theorem safe_get_never_raises (w : World) (url : pystr) (timeout : Z) (st : state) :
  let req := HttpRequest url [] timeout in
  exists v,
    safe_get w url timeout st = (Ret v, log_call (HttpGet req) st)
    /\ (v = None <-> exists descr, http_answer w (length (net_log st)) req = Failed descr)
    /\ (forall r, v = Some r <-> http_answer w (length (net_log st)) req = Answered r).
Proof.
  intros req. subst req.
  cbv [safe_get try_except bind requests_get raising call_http ret].
  destruct (http_answer w _ _) as [descr|r].
  - exists None. split; [reflexivity|]. split.
    + split; [eauto | reflexivity].
    + intros r. split; discriminate.
  - exists (Some r). split; [reflexivity|]. split.
    + split; [discriminate | intros (descr & Hd); discriminate].
    + intros r'. split; congruence.
Qed.

(** ** The fetches return in every state *)

Lemma get_pokemon_never_raises (w : World) (st : state) :
  exists v st', get_pokemon w st = (Ret v, st').
Proof.
  pose proof (get_pokemon_run w st) as Hrun.
  destruct (cache_live pokemon_ttl pokemon_cache st tt) as [v|].
  - eauto.
  - destruct Hrun as (st' & Hrun & _). eauto.
Qed.

(** X2. Neither fetch lets an exception out: in every state and whatever
    the services answer, [get_weather] and [get_pokemon] return a record or
    [None]. *)
Theorem fetches_never_raise (w : World) (st : state) (city key : pystr) :
  (exists v st', get_weather w city key st = (Ret v, st'))
  /\ (exists v st', get_pokemon w st = (Ret v, st')).
Proof.
  split; [apply get_weather_never_raises | apply get_pokemon_never_raises].
Qed.

(** ** Expiry and reuse of cached results *)

Lemma cache_live_expired (st : state) (city key : pystr) (stored : Z)
    (v : option pydict) :
  weather_cache st !! (city, key) = Some (stored, v) ->
  stored + weather_ttl <= clock st ->
  cache_live weather_ttl weather_cache st (city, key) = None.
Proof.
  intros Hlook Hold. unfold cache_live. rewrite Hlook.
  rewrite bool_decide_eq_false_2; [reflexivity | lia].
Qed.

(** X3. A stored weather result is not served once it is 600 seconds old:
    the call sends the request again and stores the new result with the
    current time. *)
Theorem weather_cache_expires (w : World) (st : state) (city key : pystr)
    (stored : Z) (v : option pydict) :
  key <> [] ->
  weather_cache st !! (city, key) = Some (stored, v) ->
  stored + 600 <= clock st ->
  let fresh := weather_of_answer city
                 (http_answer w (length (net_log st)) (weather_request city key)) in
  exists st',
    get_weather w city key st = (Ret fresh, st')
    /\ net_log st' = net_log st ++ [HttpGet (weather_request city key)]
    /\ weather_cache st' !! (city, key) = Some (clock st, fresh).
Proof.
  intros Hkey Hlook Hold fresh. subst fresh.
  pose proof (get_weather_run w city key st) as Hrun.
  rewrite (cache_live_expired st city key stored v Hlook) in Hrun by lia.
  destruct Hrun as (st' & Hrun & _ & Hwc & _ & Hlog).
  destruct key as [|c key]; [congruence|].
  unfold fetched_weather in *. cbn [str_truthy] in *.
  exists st'. split; [exact Hrun|]. split; [exact Hlog|].
  rewrite Hwc. apply lookup_insert_eq.
Qed.

Lemma weather_cache_expires_witness :
  let w := recovering_world in
  let st1 := snd (get_weather w (lit "Seoul") (lit "key") (initial_state 0)) in
  fst (get_weather w (lit "Seoul") (lit "key") (initial_state 0)) = Ret None
  /\ exists rec st',
       get_weather w (lit "Seoul") (lit "key") (set_clock 600 st1) = (Ret (Some rec), st')
       /\ length (net_log st') = 2%nat.
Proof.
  intros w st1. split; [reflexivity|].
  destruct (weather_cache_expires w (set_clock 600 st1) (lit "Seoul") (lit "key") 0 None)
    as (st' & Hrun & Hlog & _).
  - discriminate.
  - vm_compute. reflexivity.
  - vm_compute. discriminate.
  - eexists _, st'. split; [exact Hrun|]. rewrite Hlog. reflexivity.
Defined.

(** X4. A failed fetch is remembered like any other result: after a call
    that reached the service and returned [None], a call for the same city
    and key within 600 seconds returns [None] without a request, whatever
    the service would answer by then. *)
Theorem weather_failure_is_cached (w : World) (st : state) (city key : pystr) (t2 : Z) :
  cache_live weather_ttl weather_cache st (city, key) = None ->
  fst (get_weather w city key st) = Ret None ->
  clock st <= t2 < clock st + 600 ->
  let st1 := set_clock t2 (snd (get_weather w city key st)) in
  get_weather w city key st1 = (Ret None, st1).
Proof.
  intros Hlive Hnone Ht st1. subst st1.
  pose proof (get_weather_run w city key st) as Hrun. rewrite Hlive in Hrun.
  destruct Hrun as (st' & Hrun & Hclock & Hwc & _).
  rewrite Hrun in *. cbn [fst snd] in *.
  assert (Hfetched : fetched_weather w city key st = None) by congruence.
  pose proof (get_weather_run w city key (set_clock t2 st')) as Hrun2.
  rewrite (cache_live_after_store st' city key (clock st) t2 None) in Hrun2.
  - exact Hrun2.
  - rewrite Hwc, Hfetched. apply lookup_insert_eq.
  - lia.
Qed.

Lemma weather_failure_is_cached_witness :
  let w := recovering_world in
  let st1 := set_clock 599 (snd (get_weather w (lit "Seoul") (lit "key") (initial_state 0))) in
  http_answer w 1 (weather_request (lit "Seoul") (lit "key")) = ok_json (PDict busan_body)
  /\ get_weather w (lit "Seoul") (lit "key") st1 = (Ret None, st1).
Proof.
  intros w st1. split; [reflexivity|].
  apply (weather_failure_is_cached w (initial_state 0) (lit "Seoul") (lit "key") 599).
  - reflexivity.
  - reflexivity.
  - cbn. lia.
Defined.

(** X5. A weather call leaves every other entry of the weather cache, and
    the creature cache, as they were. *)
Theorem weather_call_touches_one_entry (w : World) (st : state)
    (city key city' key' : pystr) :
  (city', key') <> (city, key) ->
  let st' := snd (get_weather w city key st) in
  weather_cache st' !! (city', key') = weather_cache st !! (city', key')
  /\ pokemon_cache st' = pokemon_cache st.
Proof.
  intros Hne st'. subst st'.
  pose proof (get_weather_run w city key st) as Hrun.
  destruct (cache_live weather_ttl weather_cache st (city, key)) as [v|].
  - rewrite Hrun. now cbn.
  - destruct Hrun as (st' & -> & _ & Hwc & Hpc & _). cbn [snd].
    split; [|exact Hpc]. rewrite Hwc. apply lookup_insert_ne. congruence.
Qed.

Lemma weather_call_touches_one_entry_witness :
  let w := scripted_world (ok_json (PDict busan_body)) (Failed []) 0 in
  let st1 := snd (get_weather w (lit "Seoul") (lit "key") (initial_state 0)) in
  let st2 := snd (get_weather w (lit "Busan") (lit "key") st1) in
  weather_cache st2 !! (lit "Seoul", lit "key") = weather_cache st1 !! (lit "Seoul", lit "key").
Proof.
  intros w st1 st2.
  apply (weather_call_touches_one_entry w st1 (lit "Busan") (lit "key")
           (lit "Seoul") (lit "key")).
  discriminate.
Defined.

(** ** The creature fetch: failure and reuse *)

(** X6. A creature fetch that reaches the service returns [None], and
    raises nothing, when the request fails, when the status is not 200 and
    when the body of a 200 response is not JSON. *)
Theorem pokemon_failure_is_absent (w : World) (st : state) :
  cache_live pokemon_ttl pokemon_cache st tt = None ->
  let req := pokemon_request (drawn_id w st) in
  (exists descr, http_answer w (length (net_log st)) req = Failed descr)
  \/ (exists r, http_answer w (length (net_log st)) req = Answered r
                /\ (status_code r <> 200 \/ exists descr, json r = Failed descr)) ->
  exists st', get_pokemon w st = (Ret None, st')
              /\ net_log st' = net_log st ++ [HttpGet req].
Proof.
  intros Hlive req Hans. subst req.
  pose proof (get_pokemon_run w st) as Hrun. rewrite Hlive in Hrun.
  destruct Hrun as (st' & Hrun & _ & _ & _ & Hlog).
  exists st'. split; [|exact Hlog]. rewrite Hrun. do 2 f_equal.
  unfold pokemon_of_answer.
  destruct Hans as [(descr & ->) | (r & -> & [Hstatus | (descr & Hjson)])].
  - reflexivity.
  - apply Z.eqb_neq in Hstatus. now rewrite Hstatus.
  - rewrite Hjson. now destruct (status_code r =? 200).
Qed.

Lemma pokemon_failure_witness :
  exists st', get_pokemon unreachable_world (initial_state 0) = (Ret None, st')
              /\ net_log st' = [HttpGet (pokemon_request 1)].
Proof.
  destruct (pokemon_failure_is_absent unreachable_world (initial_state 0) eq_refl)
    as (st' & Hrun & Hlog).
  - left. eexists. reflexivity.
  - exists st'. split; [exact Hrun | exact Hlog].
Defined.

Lemma cache_live_pokemon_after_store (st : state) (stored t : Z) (v : option pydict) :
  pokemon_cache st !! tt = Some (stored, v) ->
  t < stored + pokemon_ttl ->
  cache_live pokemon_ttl pokemon_cache (set_clock t st) tt = Some v.
Proof.
  intros Hlook Ht. unfold cache_live. cbn [set_clock pokemon_cache clock].
  rewrite Hlook. now rewrite bool_decide_eq_true_2.
Qed.

(** X7. The creature is picked once per hour: after a call that fetched,
    a call less than 3600 seconds later returns the same result and leaves
    the state as it is - no request, and no new draw of the generator. *)
Theorem pokemon_cache_reuses_pick (w : World) (st : state) (t2 : Z) :
  cache_live pokemon_ttl pokemon_cache st tt = None ->
  clock st <= t2 < clock st + 3600 ->
  let first := get_pokemon w st in
  let st1 := set_clock t2 (snd first) in
  get_pokemon w st1 = (fst first, st1)
  /\ draws (snd first) = S (draws st).
Proof.
  intros Hlive Ht first st1. subst first st1.
  assert (Hrun : get_pokemon w st
                 = (Ret (pokemon_of_answer
                           (http_answer w (length (net_log st))
                              (pokemon_request (drawn_id w st)))),
                    set_pokemon_cache
                      (<[tt := (clock st,
                                pokemon_of_answer
                                  (http_answer w (length (net_log st))
                                     (pokemon_request (drawn_id w st))))]>
                         (pokemon_cache st))
                      (log_call (HttpGet (pokemon_request (drawn_id w st)))
                         (count_draw st)))).
  { unfold get_pokemon.
    rewrite (cache_data_miss pokemon_ttl pokemon_cache set_pokemon_cache
               (fun _ => get_pokemon_body w) st tt _ _ Hlive (get_pokemon_body_run w st)).
    reflexivity. }
  rewrite Hrun. cbn [fst snd]. split; [|reflexivity].
  match goal with
  | |- get_pokemon w (set_clock t2 ?s) = _ =>
    pose proof (get_pokemon_run w (set_clock t2 s)) as Hrun2;
    rewrite (cache_live_pokemon_after_store s (clock st) t2
               (pokemon_of_answer
                  (http_answer w (length (net_log st))
                     (pokemon_request (drawn_id w st))))) in Hrun2
  end.
  - exact Hrun2.
  - cbn [set_pokemon_cache pokemon_cache]. apply lookup_insert_eq.
  - lia.
Qed.

Lemma pokemon_cache_reuses_pick_witness :
  let w := recovering_world in
  let first := get_pokemon w (initial_state 0) in
  drawn_id w (initial_state 0) = 25
  /\ drawn_id w (snd first) = 26
  /\ fst (get_pokemon w (set_clock 3599 (snd first))) = fst first.
Proof.
  intros w first. split; [reflexivity|]. split; [reflexivity|].
  destruct (pokemon_cache_reuses_pick w (initial_state 0) 3599 eq_refl) as (Hsame & _).
  - cbn. lia.
  - fold first in Hsame. now rewrite Hsame.
Defined.

(** ** What a creature record holds *)

Lemma pokemon_record_inv j p :
  pokemon_record j = Ret p ->
  exists body ts ss types stats artwork,
    j = PDict body
    /\ py_iter (default (PList []) (dict_lookup body (PStr (lit "types")))) = Ret ts
    /\ type_names ts = Ret types
    /\ py_iter (default (PList []) (dict_lookup body (PStr (lit "stats")))) = Ret ss
    /\ collect_stats ss [] = Ret stats
    /\ obind (py_get (default (PDict []) (dict_lookup body (PStr (lit "sprites"))))
                (lit "other") (PDict []))
         (fun b => obind (py_get b (lit "official-artwork") (PDict []))
                     (fun c => py_get c (lit "front_default") PNone))
       = Ret artwork
    /\ p = [ (PStr (lit "name"), default PNone (dict_lookup body (PStr (lit "name"))));
             (PStr (lit "dex"), default PNone (dict_lookup body (PStr (lit "id"))));
             (PStr (lit "types"), PList types);
             (PStr (lit "stats"), PDict stats);
             (PStr (lit "artwork"), artwork) ].
Proof.
  unfold pokemon_record. destruct j as [| | | | | |body]; try discriminate.
  cbn [py_get obind]. intros Hrec.
  destruct (py_iter (default (PList []) (dict_lookup body (PStr (lit "types")))))
    as [ts|] eqn:Hts; [|discriminate].
  cbn [obind] in Hrec.
  destruct (type_names ts) as [types|] eqn:Htypes; [|discriminate].
  cbn [obind] in Hrec.
  destruct (py_iter (default (PList []) (dict_lookup body (PStr (lit "stats")))))
    as [ss|] eqn:Hss; [|discriminate].
  cbn [obind] in Hrec.
  destruct (collect_stats ss []) as [stats|] eqn:Hstats; [|discriminate].
  cbn [obind] in Hrec.
  match type of Hrec with
  | obind ?a _ = _ => destruct a as [artwork|] eqn:Hart; [|discriminate]
  end.
  cbn [obind] in Hrec.
  exists body, ts, ss, types, stats, artwork.
  repeat split; try reflexivity; try assumption. congruence.
Qed.

Lemma dict_set_members d k v k' v' :
  In (k', v') (dict_set d k v) ->
  (k', v') = (k, v) \/ (exists v0, In (k', v0) d).
Proof.
  induction d as [|[k0 v0] d IH]; cbn [dict_set].
  - intros [H|[]]. left. now symmetry.
  - destruct (py_key_eq k0 k) eqn:Heq.
    + intros [H|H].
      * inversion H; subst. right. exists v0. now left.
      * right. exists v'. now right.
    + intros [H|H].
      * inversion H; subst. right. exists v'. now left.
      * destruct (IH H) as [Hnew|(v1 & Hold)]; [now left|].
        right. exists v1. now right.
Qed.

Lemma dict_set_distinct d k v :
  distinct_keys d -> distinct_keys (dict_set d k v).
Proof.
  induction 1 as [|k0 v0 d Hhead Hd IH]; cbn [dict_set].
  - constructor; [intros ? ? []|constructor].
  - destruct (py_key_eq k0 k) eqn:Heq.
    + constructor; assumption.
    + constructor; [|exact IH].
      intros k' v' Hin. destruct (dict_set_members d k v k' v' Hin) as [Hnew|(v1 & Hold)].
      * inversion Hnew; subst. exact Heq.
      * exact (Hhead k' v1 Hold).
Qed.

Lemma dict_set_kept d k v :
  Forall kept_stat d -> kept_stat (k, v) -> isinstance_int v = true ->
  Forall kept_stat (dict_set d k v).
Proof.
  intros Hd Hkv Hv. induction Hd as [|[k0 v0] d Hk0 Hd IH]; cbn [dict_set].
  - apply Forall_cons; split; [exact Hkv | apply Forall_nil_2].
  - destruct (py_key_eq k0 k).
    + apply Forall_cons; split; [|exact Hd].
      destruct Hk0 as (Ht & Hh & _). now repeat split.
    + apply Forall_cons; split; assumption.
Qed.

Lemma collect_stats_invariant ss acc stats :
  collect_stats ss acc = Ret stats ->
  Forall kept_stat acc -> distinct_keys acc ->
  Forall kept_stat stats /\ distinct_keys stats.
Proof.
  revert acc. induction ss as [|s ss IH]; intros acc; cbn [collect_stats].
  - intros [= <-]. now split.
  - unfold obind.
    destruct (py_get s (lit "stat") (PDict [])) as [stat|]; [|discriminate].
    destruct (py_get stat (lit "name") PNone) as [key|]; [|discriminate].
    destruct (py_get s (lit "base_stat") PNone) as [val|]; [|discriminate].
    destruct (py_truthy key) eqn:Htruthy; cbn [andb].
    + destruct (isinstance_int val) eqn:Hint.
      * destruct (py_hashable key) eqn:Hhash; [|discriminate].
        intros Hrun Hkept Hdist. apply (IH _ Hrun).
        -- apply dict_set_kept; [assumption | now repeat split | assumption].
        -- now apply dict_set_distinct.
      * apply IH.
    + apply IH.
Qed.

Lemma py_key_eq_refl (k : pyval) : py_hashable k = true -> py_key_eq k k = true.
Proof.
  destruct k as [ | b | z | f | s | l | d]; cbn [py_hashable py_key_eq]; try discriminate;
    intros _.
  - reflexivity.
  - now destruct b.
  - apply Z.eqb_refl.
  - unfold PrimFloat.is_nan. now destruct (PrimFloat.eqb f f).
  - unfold str_eqb. now apply bool_decide_eq_true_2.
Qed.

(** Keys that differ as dict keys are different objects. *)
Lemma distinct_keys_NoDup (d : pydict) :
  Forall kept_stat d -> distinct_keys d -> List.NoDup (map fst d).
Proof.
  intros Hkept Hdist. induction Hdist as [|k v d Hhead Hd IH]; cbn [map].
  - constructor.
  - apply Forall_cons in Hkept as [(_ & Hhash & _) Hkept]. constructor; [|now apply IH].
    intros Hin. apply in_map_iff in Hin as ([k' v'] & Hk & Hin). cbn [fst] in Hk. subst k'.
    pose proof (Hhead k v' Hin) as Hne. cbn [fst] in Hhash.
    rewrite (py_key_eq_refl k Hhash) in Hne. discriminate Hne.
Qed.

(** X8. Whatever the response body, the [stats] of a creature record keep
    only entries with an [int] value (a [bool] counts as one) under a
    truthy, hashable name, and no two entries share a name: the names
    differ pairwise as dict keys, and so no name is listed twice. *)
Theorem pokemon_stats_are_integers (j : pyval) (p : pydict) :
  pokemon_record j = Ret p ->
  exists stats,
    dict_get p (lit "stats") = PDict stats
    /\ Forall kept_stat stats
    /\ distinct_keys stats
    /\ List.NoDup (map fst stats).
Proof.
  intros Hrec.
  destruct (pokemon_record_inv j p Hrec)
    as (body & ts & ss & types & stats & artwork & _ & _ & _ & _ & Hstats & _ & ->).
  exists stats. split; [reflexivity|].
  destruct (collect_stats_invariant ss [] stats Hstats) as (Hkept & Hdist);
    [constructor | constructor |].
  repeat split; [exact Hkept | exact Hdist | now apply distinct_keys_NoDup].
Qed.

Lemma pokemon_stats_witness :
  pokemon_record (PDict nan_named_body) = Ret nan_named_creature
  /\ dict_get nan_named_creature (lit "stats")
     = PDict [(PFloat PrimFloat.nan, PInt 2); (PStr (lit "hp"), PInt 44)]
  /\ exists stats,
       dict_get nan_named_creature (lit "stats") = PDict stats
       /\ Forall kept_stat stats /\ List.NoDup (map fst stats).
Proof.
  assert (Hrec : pokemon_record (PDict nan_named_body) = Ret nan_named_creature)
    by (vm_compute; reflexivity).
  split; [exact Hrec|]. split; [vm_compute; reflexivity|].
  destruct (pokemon_stats_are_integers (PDict nan_named_body) nan_named_creature Hrec)
    as (stats & Hstats & Hkept & _ & Hnodup).
  exists stats. now repeat split.
Defined.

Lemma collect_stats_app ss1 ss2 acc :
  collect_stats (ss1 ++ ss2) acc
  = obind (collect_stats ss1 acc) (fun mid => collect_stats ss2 mid).
Proof.
  revert acc. induction ss1 as [|s ss1 IH]; intros acc; [reflexivity|].
  cbn [app collect_stats]. unfold obind.
  destruct (py_get s (lit "stat") (PDict [])) as [stat|]; [|reflexivity].
  destruct (py_get stat (lit "name") PNone) as [key|]; [|reflexivity].
  destruct (py_get s (lit "base_stat") PNone) as [val|]; [|reflexivity].
  destruct (py_truthy key && isinstance_int val); [|apply IH].
  destruct (py_hashable key); [apply IH | reflexivity].
Qed.

Lemma dict_lookup_set_same d (name : pystr) v :
  dict_lookup (dict_set d (PStr name) v) (PStr name) = Some v.
Proof.
  assert (Hrefl : py_key_eq (PStr name) (PStr name) = true).
  { cbn [py_key_eq]. unfold str_eqb. now apply bool_decide_eq_true_2. }
  induction d as [|[k0 v0] d IH]; cbn [dict_set dict_lookup].
  - now rewrite Hrefl.
  - destruct (py_key_eq k0 (PStr name)) eqn:Heq; cbn [dict_lookup]; rewrite Heq;
      [reflexivity | exact IH].
Qed.

Lemma collect_stat_entry (name : pystr) (v : pyval) acc :
  name <> [] -> isinstance_int v = true ->
  collect_stats [stat_entry name v] acc = Ret (dict_set acc (PStr name) v).
Proof.
  intros Hname Hint. destruct name as [|c name]; [congruence|].
  unfold stat_entry. cbn [collect_stats].
  change (py_get (PDict [(PStr (lit "base_stat"), v); (PStr (lit "effort"), PInt 0);
                         (PStr (lit "stat"), PDict [(PStr (lit "name"), PStr (c :: name))])])
            (lit "stat") (PDict []))
    with (Ret (PDict [(PStr (lit "name"), PStr (c :: name))])).
  cbn [obind].
  change (py_get (PDict [(PStr (lit "name"), PStr (c :: name))]) (lit "name") PNone)
    with (Ret (PStr (c :: name))).
  cbn [obind].
  change (py_get (PDict [(PStr (lit "base_stat"), v); (PStr (lit "effort"), PInt 0);
                         (PStr (lit "stat"), PDict [(PStr (lit "name"), PStr (c :: name))])])
            (lit "base_stat") PNone)
    with (Ret v).
  cbn [obind py_truthy str_truthy andb py_hashable]. now rewrite Hint.
Qed.

(** X9. When the service lists a stat more than once, the last integer
    value wins: after any entries, an entry with a non-empty name and an
    [int] value is what the collected stats hold under that name. *)
Theorem last_stat_value_wins (ss : list pyval) (name : pystr) (v : pyval)
    (stats : pydict) :
  name <> [] -> isinstance_int v = true ->
  collect_stats (ss ++ [stat_entry name v]) [] = Ret stats ->
  dict_lookup stats (PStr name) = Some v.
Proof.
  intros Hname Hint. rewrite collect_stats_app.
  destruct (collect_stats ss []) as [mid|]; [|discriminate].
  cbn [obind]. rewrite collect_stat_entry by assumption.
  intros [= <-]. apply dict_lookup_set_same.
Qed.

Lemma last_stat_value_witness :
  dict_lookup [(PStr (lit "hp"), PInt 45); (PStr (lit "speed"), PInt 43)]
    (PStr (lit "hp")) = Some (PInt 45).
Proof.
  apply (last_stat_value_wins
           [stat_entry (lit "hp") (PInt 44); stat_entry (lit "speed") (PInt 43)]
           (lit "hp") (PInt 45)).
  - discriminate.
  - reflexivity.
  - vm_compute. reflexivity.
Defined.

(** X10. The [types] of a record are the names of the listed entries, in
    the order of the response; an entry without a [type] is skipped. *)
Theorem type_names_in_order (entries names : list pyval) :
  names_of entries names -> type_names entries = Ret names.
Proof.
  induction 1 as [|d t n es ns Htype Hname _ IH | d es ns Htype _ IH];
    cbn [type_names py_in_str obind].
  - reflexivity.
  - rewrite Htype. rewrite bool_decide_eq_true_2 by (now exists (PDict t)).
    cbn [py_getitem_str obind]. rewrite Htype. cbn [py_getitem_str obind].
    rewrite Hname. cbn [obind]. now rewrite IH.
  - rewrite Htype. rewrite bool_decide_eq_false_2 by (intros [? H]; discriminate).
    exact IH.
Qed.

Lemma type_names_witness :
  type_names
    [ PDict [(PStr (lit "slot"), PInt 1);
             (PStr (lit "type"), PDict [(PStr (lit "name"), PStr (lit "grass"))])];
      PDict [(PStr (lit "slot"), PInt 2)];
      PDict [(PStr (lit "slot"), PInt 3);
             (PStr (lit "type"), PDict [(PStr (lit "name"), PStr (lit "poison"))])] ]
  = Ret [PStr (lit "grass"); PStr (lit "poison")].
Proof.
  apply type_names_in_order.
  eapply names_typed; [reflexivity | reflexivity |].
  eapply names_untyped; [reflexivity |].
  eapply names_typed; [reflexivity | reflexivity |].
  constructor.
Defined.

Lemma py_get_link (o : option pyval) (key : pystr) (dflt : pyval) :
  py_get (default (PDict []) o) key dflt
  = match o with
    | None => Ret dflt
    | Some (PDict d) => Ret (default dflt (dict_lookup d (PStr key)))
    | Some _ => Raise AttributeError
    end.
Proof. destruct o as [[]|]; reflexivity. Qed.

(** X11. The [artwork] of a record is the value under
    [sprites.other.official-artwork.front_default], or [None] when a link
    of that path is missing; a link that is there but is not an object
    leaves no record at all. *)
Theorem artwork_follows_the_path (body p : pydict) :
  (pokemon_record (PDict body) = Ret p ->
   dict_get p (lit "artwork") = artwork_of body)
  /\ (forall v, dict_lookup body (PStr (lit "sprites")) = Some v ->
                (forall d, v <> PDict d) ->
                pokemon_record (PDict body) <> Ret p).
Proof.
  split.
  - intros Hrec.
    destruct (pokemon_record_inv _ p Hrec)
      as (body' & ts & ss & types & stats & artwork & Hbody & _ & _ & _ & _ & Hart & ->).
    inversion Hbody; subst body'.
    change (dict_get _ (lit "artwork")) with artwork.
    unfold artwork_of. rewrite py_get_link in Hart.
    destruct (dict_lookup body (PStr (lit "sprites"))) as [[| | | | | |s]|];
      try discriminate;
      [|cbn [obind py_get dict_lookup default] in Hart; congruence].
    cbn [obind] in Hart. rewrite py_get_link in Hart.
    destruct (dict_lookup s (PStr (lit "other"))) as [[| | | | | |o]|];
      try discriminate;
      [|cbn [obind py_get dict_lookup default] in Hart; congruence].
    cbn [obind] in Hart. rewrite py_get_link in Hart.
    destruct (dict_lookup o (PStr (lit "official-artwork"))) as [[| | | | | |a]|];
      try discriminate; congruence.
  - intros v Hsprites Hnot Hrec.
    destruct (pokemon_record_inv _ p Hrec)
      as (body' & ts & ss & types & stats & artwork & Hbody & _ & _ & _ & _ & Hart & _).
    inversion Hbody; subst body'. rewrite py_get_link, Hsprites in Hart.
    destruct v as [| | | | | |d]; try discriminate. now apply (Hnot d).
Qed.

Lemma artwork_witness :
  dict_get squirtle (lit "artwork") = PNone.
Proof.
  apply (artwork_follows_the_path
           [ (PStr (lit "name"), PStr (lit "squirtle"));
             (PStr (lit "id"), PInt 7);
             (PStr (lit "sprites"), PDict [(PStr (lit "other"), PDict [])]);
             (PStr (lit "types"),
              PList [PDict [(PStr (lit "type"),
                             PDict [(PStr (lit "name"), PStr (lit "water"))])]]);
             (PStr (lit "stats"),
              PList [ stat_entry (lit "hp") (PInt 44); stat_entry (lit "speed") (PInt 43) ]) ]
           squirtle).
  vm_compute. reflexivity.
Defined.

(** ** The shape of the records in every reachable state *)

Lemma weather_of_answer_built city a rec :
  weather_of_answer city a = Some rec -> exists j, weather_record city j = Ret rec.
Proof.
  unfold weather_of_answer. destruct a as [descr|r]; [discriminate|].
  destruct (status_code r =? 200); [|discriminate].
  destruct (json r) as [descr|j]; [discriminate|].
  destruct (weather_record city j) as [d|] eqn:Hrec; [|discriminate].
  intros [= <-]. now exists j.
Qed.

Lemma pokemon_of_answer_built a p :
  pokemon_of_answer a = Some p -> exists j, pokemon_record j = Ret p.
Proof.
  unfold pokemon_of_answer. destruct a as [descr|r]; [discriminate|].
  destruct (status_code r =? 200); [|discriminate].
  destruct (json r) as [descr|j]; [discriminate|].
  destruct (pokemon_record j) as [d|] eqn:Hrec; [|discriminate].
  intros [= <-]. now exists j.
Qed.

Lemma reachable_caches_hold_records w st : reachable w st -> caches_hold_records st.
Proof.
  induction 1 as [now | st t _ IH _ | st city key _ IH | st _ IH
                 | st key style habits mood weather pokemon _ IH].
  - split; intros *; cbn; rewrite lookup_empty; discriminate.
  - exact IH.
  - destruct IH as [IHw IHp].
    pose proof (get_weather_run w city key st) as Hrun.
    destruct (cache_live weather_ttl weather_cache st (city, key)) as [v|].
    + rewrite Hrun. now split.
    + destruct Hrun as (st' & -> & _ & Hwc & Hpc & _). cbn [snd].
      split; [|rewrite Hpc; exact IHp].
      intros c k stored rec. rewrite Hwc.
      destruct (decide ((city, key) = (c, k))) as [Heq|Hne].
      * rewrite Heq, lookup_insert_eq. intros [= _ Hrec]. inversion Heq; subst.
        unfold fetched_weather in Hrec. destruct (str_truthy k); [|discriminate].
        now apply weather_of_answer_built in Hrec.
      * rewrite lookup_insert_ne by exact Hne. apply IHw.
  - destruct IH as [IHw IHp].
    pose proof (get_pokemon_run w st) as Hrun.
    destruct (cache_live pokemon_ttl pokemon_cache st tt) as [v|].
    + rewrite Hrun. now split.
    + destruct Hrun as (st' & -> & _ & Hwc & Hpc & _). cbn [snd].
      split; [rewrite Hwc; exact IHw|].
      intros stored p. rewrite Hpc, lookup_insert_eq. intros [= _ Hrec].
      now apply pokemon_of_answer_built in Hrec.
  - destruct IH as [IHw IHp].
    destruct (generate_report_state w key style habits mood weather pokemon st)
      as (_ & Hwc & Hpc).
    split; [rewrite Hwc; exact IHw | rewrite Hpc; exact IHp].
Qed.

Lemma weather_record_keys city j rec :
  weather_record city j = Ret rec ->
  map fst rec
  = [ PStr (lit "city"); PStr (lit "temp_c"); PStr (lit "feels_like_c");
      PStr (lit "humidity"); PStr (lit "desc"); PStr (lit "wind_mps");
      PStr (lit "icon") ].
Proof.
  unfold weather_record, obind. intros Hrec.
  repeat match type of Hrec with
  | match ?x with _ => _ end = _ => destruct x; try discriminate
  end.
  inversion Hrec. reflexivity.
Qed.

Lemma cache_live_pokemon_stored st v :
  cache_live pokemon_ttl pokemon_cache st tt = Some v ->
  exists stored, pokemon_cache st !! tt = Some (stored, v).
Proof.
  unfold cache_live.
  destruct (pokemon_cache st !! tt) as [[stored v']|]; [|discriminate].
  destruct (bool_decide _); [|discriminate].
  intros [= ->]. now exists stored.
Qed.

(** X12. In every state the program can reach, a record returned by
    [get_weather] has exactly the seven keys of the dict literal, and a
    record returned by [get_pokemon] the five keys of its literal, with a
    list under [types] and a dict under [stats] - served from the cache or
    not. *)
Theorem fetched_records_have_fixed_keys (w : World) (st : state) (city key : pystr) :
  reachable w st ->
  (forall rec, fst (get_weather w city key st) = Ret (Some rec) ->
     map fst rec
     = [ PStr (lit "city"); PStr (lit "temp_c"); PStr (lit "feels_like_c");
         PStr (lit "humidity"); PStr (lit "desc"); PStr (lit "wind_mps");
         PStr (lit "icon") ])
  /\ (forall p, fst (get_pokemon w st) = Ret (Some p) ->
        map fst p
        = [ PStr (lit "name"); PStr (lit "dex"); PStr (lit "types");
            PStr (lit "stats"); PStr (lit "artwork") ]
        /\ exists types stats,
             dict_get p (lit "types") = PList types
             /\ dict_get p (lit "stats") = PDict stats).
Proof.
  intros Hreach.
  destruct (reachable_caches_hold_records w st Hreach) as [Hw Hp]. split.
  - intros rec Hret.
    assert (Hbuilt : exists j, weather_record city j = Ret rec).
    { pose proof (get_weather_run w city key st) as Hrun.
      destruct (cache_live weather_ttl weather_cache st (city, key)) as [v|] eqn:Hlive.
      - rewrite Hrun in Hret. cbn [fst] in Hret.
        destruct (cache_live_stored st city key v Hlive) as (stored & Hlook).
        assert (v = Some rec) by congruence. subst v. exact (Hw _ _ _ _ Hlook).
      - destruct Hrun as (st' & Hrun & _). rewrite Hrun in Hret. cbn [fst] in Hret.
        unfold fetched_weather in Hret. destruct (str_truthy key); [|discriminate].
        injection Hret as Hret. exact (weather_of_answer_built _ _ _ Hret). }
    destruct Hbuilt as (j & Hrec). exact (weather_record_keys city j rec Hrec).
  - intros p Hret.
    assert (Hbuilt : exists j, pokemon_record j = Ret p).
    { pose proof (get_pokemon_run w st) as Hrun.
      destruct (cache_live pokemon_ttl pokemon_cache st tt) as [v|] eqn:Hlive.
      - rewrite Hrun in Hret. cbn [fst] in Hret.
        destruct (cache_live_pokemon_stored st v Hlive) as (stored & Hlook).
        assert (v = Some p) by congruence. subst v. exact (Hp _ _ Hlook).
      - destruct Hrun as (st' & Hrun & _). rewrite Hrun in Hret. cbn [fst] in Hret.
        injection Hret as Hret. exact (pokemon_of_answer_built _ _ Hret). }
    destruct Hbuilt as (j & Hrec).
    destruct (pokemon_record_inv j p Hrec)
      as (body & ts & ss & types & stats & artwork & _ & _ & _ & _ & _ & _ & ->).
    split; [reflexivity|]. now exists types, stats.
Qed.

Lemma fetched_records_witness :
  let w := scripted_world (ok_json (PDict busan_body)) (Failed []) 0 in
  exists p,
    fst (get_pokemon w (initial_state 0)) = Ret (Some p)
    /\ map fst p
       = [ PStr (lit "name"); PStr (lit "dex"); PStr (lit "types");
           PStr (lit "stats"); PStr (lit "artwork") ].
Proof.
  intros w. eexists. split; [reflexivity|].
  apply (fetched_records_have_fixed_keys w (initial_state 0) (lit "Seoul") (lit "key")
           (reach_init w 0)).
  reflexivity.
Defined.

(** ** The system prompt *)

Lemma in_order_here (b : pystr) (bs : list pystr) (rest : pystr) :
  in_order bs rest -> in_order (b :: bs) (b ++ rest).
Proof. intros H. exists [], rest. now split. Qed.

Lemma in_order_skip (x b : pystr) (bs : list pystr) (s : pystr) :
  in_order (b :: bs) s -> in_order (b :: bs) (x ++ s).
Proof.
  intros (pre & rest & -> & H). exists (x ++ pre), rest. split; [|exact H].
  now rewrite <- app_assoc.
Qed.

(** Finds the blocks, one after the other, among the pieces of a
    concatenation. *)
Ltac find_in_order :=
  lazymatch goal with
  | |- in_order [] _ => exact I
  | |- in_order (?b :: _) (?x ++ _) =>
    first [ constr_eq b x; apply in_order_here; find_in_order
          | apply in_order_skip; find_in_order ]
  end.

(** The prompt is the literal without the line breaks around it, with the
    style name and its guide on the fourth and fifth lines. *)
Lemma coach_system_prompt_value (style_label : pystr) :
  _coach_system_prompt style_label
  = (lit "너는 'AI 습관 코치'다. 사용자의 오늘 습관 체크인 + 기분 + 날씨 + 포켓몬 정보를 보고," ++ nl ++
         lit "행동을 유도하는 1일 리포트를 작성한다." ++ nl ++
         nl ++
         lit "코치 스타일: " ++ style_label ++ nl ++
         lit "스타일 가이드: " ++ styles_get COACH_STYLES style_label [] ++ nl ++
         nl ++
         lit "출력 규칙:" ++ nl ++
         lit "- 반드시 아래 섹션을 순서대로 출력한다." ++ nl ++
         lit "- 한국어로 작성한다." ++ nl ++
         lit "- 군더더기 없이, 하지만 읽기 즐겁게." ++ nl ++
         nl ++
         lit "출력 형식(그대로 유지):" ++ nl ++
         lit "1) 컨디션 등급: (S/A/B/C/D 중 하나) - 한 줄 코멘트" ++ nl ++
         lit "2) 습관 분석:" ++ nl ++
         lit "- 잘한 점 2개" ++ nl ++
         lit "- 아쉬운 점 1개" ++ nl ++
         lit "- 내일 1% 개선 액션 1개" ++ nl ++
         lit "3) 날씨 코멘트: (날씨/기온/체감/습도 중 2개 이상을 엮어서 현실적인 조언)" ++ nl ++
         lit "4) 내일 미션(체크박스 기반): 3개 (각각 1줄, 구체적으로)" ++ nl ++
         lit "5) 오늘의 파트너 포켓몬:" ++ nl ++
         lit "- 포켓몬: 이름(#도감번호)" ++ nl ++
         lit "- 타입:" ++ nl ++
         lit "- 스탯 하이라이트: (스탯 2개를 골라 숫자와 함께)" ++ nl ++
         lit "- 응원 멘트: (스탯을 은유로 연결해서, 한 문단)" ++ nl ++
         nl ++
         lit "등급 기준 힌트(너가 판단):" ++ nl ++
         lit "- S: 5개 습관 중 4~5개 + 기분 8~10" ++ nl ++
         lit "- A: 3~4개 + 기분 7~10" ++ nl ++
         lit "- B: 2~3개 + 기분 5~8" ++ nl ++
         lit "- C: 1~2개 또는 기분 3~5" ++ nl ++
         lit "- D: 0~1개 + 기분 1~3").
Proof.
  unfold _coach_system_prompt.
  assert (Hfirst : lit "너는 'AI 습관 코치'다. 사용자의 오늘 습관 체크인 + 기분 + 날씨 + 포켓몬 정보를 보고,"
                   = 45320%N :: lit "는 'AI 습관 코치'다. 사용자의 오늘 습관 체크인 + 기분 + 날씨 + 포켓몬 정보를 보고,") by (vm_compute; reflexivity).
  assert (Hlast : lit "- D: 0~1개 + 기분 1~3" = lit "- D: 0~1개 + 기분 1~" ++ [51%N]) by (vm_compute; reflexivity).
  rewrite Hfirst, Hlast.
  match goal with
  | |- strip (text_block (?l1 :: ?rest)) = _ =>
    let init := eval cbv [List.removelast] in (List.removelast rest) in
    let fin := eval cbv [List.last] in (List.last rest []) in
    change (l1 :: rest) with (l1 :: init ++ [fin])
  end.
  rewrite strip_text_block by reflexivity.
  cbn [map concat]. rewrite app_nil_r, <- !app_comm_cons. list_norm.
  rewrite !app_nil_l. reflexivity.
Qed.

Lemma styles_get_known (style guide : pystr) :
  In (style, guide) COACH_STYLES -> styles_get COACH_STYLES style [] = guide.
Proof.
  intros [H | [H | [H | []]]]; inversion H; subst; vm_compute; reflexivity.
Qed.

Lemma styles_get_unknown (d : list (pystr * pystr)) (style dflt : pystr) :
  (forall guide, ~ In (style, guide) d) -> styles_get d style dflt = dflt.
Proof.
  induction d as [|[k v] d IH]; intros Hnot; [reflexivity|].
  cbn [styles_get]. unfold str_eqb. destruct (bool_decide (k = style)) eqn:Heq.
  - apply bool_decide_eq_true_1 in Heq. subst k. exfalso. apply (Hnot v). now left.
  - apply IH. intros guide Hin. apply (Hnot guide). now right.
Qed.

(** X13. For every style label the system prompt carries the label and
    the guide of that style on consecutive lines - the guide of the label
    in [COACH_STYLES], the empty string for any other label - and the five
    numbered section lines in their order. *)
Theorem coach_prompt_structure (style_label : pystr) :
  let prompt := _coach_system_prompt style_label in
  occurs_in
    (lit "코치 스타일: " ++ style_label ++ nl ++
     lit "스타일 가이드: " ++ styles_get COACH_STYLES style_label [] ++ nl)
    prompt
  /\ in_order
       [ lit "1) 컨디션 등급: (S/A/B/C/D 중 하나) - 한 줄 코멘트";
         lit "2) 습관 분석:";
         lit "3) 날씨 코멘트: (날씨/기온/체감/습도 중 2개 이상을 엮어서 현실적인 조언)";
         lit "4) 내일 미션(체크박스 기반): 3개 (각각 1줄, 구체적으로)";
         lit "5) 오늘의 파트너 포켓몬:" ]
       prompt
  /\ (forall guide, In (style_label, guide) COACH_STYLES ->
        styles_get COACH_STYLES style_label [] = guide)
  /\ ((forall guide, ~ In (style_label, guide) COACH_STYLES) ->
        styles_get COACH_STYLES style_label [] = []).
Proof.
  intros prompt. subst prompt. rewrite coach_system_prompt_value.
  split; [find_block|]. split; [list_norm; find_in_order|].
  split; [apply styles_get_known | apply styles_get_unknown].
Qed.

(** ** The composer on an answer without text *)

Lemma lstrip_all_space s : all_space s -> lstrip s = [].
Proof.
  induction 1 as [|c s Hc _ IH]; [reflexivity|].
  cbn [lstrip]. now rewrite Hc.
Qed.

Lemma strip_all_space s : all_space s -> strip s = [].
Proof. intros Hs. unfold strip. now rewrite lstrip_all_space. Qed.

(** X14. An answer of the generation service that carries no text, or
    only whitespace, is a success with the empty string as its report: the
    error side stays [None]. *)
Theorem blank_answer_is_empty_report (w : World) (st : state)
    (key style : pystr) (habits : list pystr) (mood : Z)
    (weather pokemon : option pydict) (payload : pystr) (resp : gen_response) :
  key <> [] ->
  user_payload w habits mood weather pokemon = Ret payload ->
  openai_answer w (length (net_log st)) (report_request key style payload) = Answered resp ->
  all_space (default [] (output_text resp)) ->
  fst (generate_report w key style habits mood weather pokemon st) = Ret (Some [], None).
Proof.
  intros Hkey Hpayload Hans Hblank.
  rewrite (generate_report_run w key style habits mood weather pokemon payload st
             Hkey Hpayload).
  cbn [fst]. rewrite Hans. now rewrite strip_all_space.
Qed.

Lemma blank_answer_witness :
  let w := scripted_world (Failed []) (Answered (GenResponse None)) 0 in
  fst (generate_report w (lit "sk-test") (lit "게임 마스터") [] 6 None None (initial_state 0))
  = Ret (Some [], None).
Proof.
  intros w.
  pose proof (user_payload_built w [] 6 None None _ _ _ eq_refl eq_refl eq_refl) as Hpayload.
  match type of Hpayload with
  | _ = Ret ?payload =>
    apply (blank_answer_is_empty_report w (initial_state 0) (lit "sk-test")
             (lit "게임 마스터") [] 6 None None payload (GenResponse None))
  end.
  - discriminate.
  - exact Hpayload.
  - reflexivity.
  - constructor.
Defined.

(** ** [type_ko] *)

Lemma styles_get_cases (d : list (pystr * pystr)) (key dflt : pystr) :
  (exists v, In (key, v) d /\ styles_get d key dflt = v)
  \/ ((forall v, ~ In (key, v) d) /\ styles_get d key dflt = dflt).
Proof.
  induction d as [|[k v] d IH]; [right; split; [intros v [] | reflexivity]|].
  cbn [styles_get]. unfold str_eqb. destruct (bool_decide (k = key)) eqn:Heq.
  - apply bool_decide_eq_true_1 in Heq. subst k. left. exists v. split; [now left | reflexivity].
  - apply bool_decide_eq_false_1 in Heq.
    destruct IH as [(v' & Hin & Hget) | (Hnot & Hget)].
    + left. exists v'. split; [now right | exact Hget].
    + right. split; [|exact Hget].
      intros v' [H|H]; [inversion H; congruence | exact (Hnot v' H)].
Qed.

Lemma type_ko_of_translation (t ko : pystr) :
  In (t, ko) type_ko_mapping -> type_ko t = ko /\ type_ko ko = ko.
Proof.
  intros Hin. unfold type_ko_mapping in Hin. cbn [In] in Hin.
  repeat (destruct Hin as [Hin|Hin];
          [inversion Hin; subst; split; vm_compute; reflexivity|]).
  destruct Hin.
Qed.

(** X15. [type_ko] never fails: a type name of its table is replaced by
    its Korean name, every other string comes back unchanged, and
    translating twice is the same as translating once. *)
Theorem type_ko_translates_or_keeps (t : pystr) :
  (forall ko, In (t, ko) type_ko_mapping -> type_ko t = ko)
  /\ ((forall ko, ~ In (t, ko) type_ko_mapping) -> type_ko t = t)
  /\ type_ko (type_ko t) = type_ko t.
Proof.
  split; [intros ko Hin; now apply type_ko_of_translation|].
  split; [intros Hnot; now apply styles_get_unknown|].
  destruct (styles_get_cases type_ko_mapping t t) as [(ko & Hin & Hget) | (_ & Hget)].
  - fold (type_ko t) in Hget. rewrite Hget.
    now apply (type_ko_of_translation t ko).
  - fold (type_ko t) in Hget. now rewrite Hget.
Qed.

(** ** The stat chart *)

Lemma labels_find_sound d name label :
  labels_find d name = Some label -> In (name, label) d.
Proof.
  induction d as [|[k v] d IH]; [discriminate|].
  cbn [labels_find]. unfold str_eqb. destruct (bool_decide (k = name)) eqn:Heq.
  - apply bool_decide_eq_true_1 in Heq. intros [= <-]. subst k. now left.
  - intros H. right. now apply IH.
Qed.

Lemma labels_find_known name label :
  In (name, label) STAT_LABELS_KO -> labels_find STAT_LABELS_KO name = Some label.
Proof.
  intros Hin. unfold STAT_LABELS_KO in Hin. cbn [In] in Hin.
  repeat (destruct Hin as [Hin|Hin]; [inversion Hin; subst; vm_compute; reflexivity|]).
  destruct Hin.
Qed.

Lemma stat_rows_sound (stats : pydict) :
  Forall (fun row => exists name,
            In (name, fst row) STAT_LABELS_KO /\ In (PStr name, snd row) stats)
         (stat_rows stats)
  /\ (length (stat_rows stats) <= length stats)%nat.
Proof.
  induction stats as [|[k v] stats [IHrows IHlen]]; [split; [constructor | reflexivity]|].
  assert (Hweaken :
    Forall (fun row => exists name,
              In (name, fst row) STAT_LABELS_KO /\ In (PStr name, snd row) ((k, v) :: stats))
           (stat_rows stats)).
  { eapply Forall_impl; [exact IHrows|].
    intros row (name & Hl & Hs). exists name. split; [exact Hl | now right]. }
  cbn [stat_rows]. destruct (stat_label k) as [label|] eqn:Hlabel.
  - split; [|cbn [length]; lia].
    apply Forall_cons; split; [|exact Hweaken].
    destruct k as [| | | |name| |]; try discriminate.
    exists name. split; [now apply labels_find_sound | now left].
  - split; [exact Hweaken | cbn [length]; lia].
Qed.

Lemma stat_rows_complete (stats : pydict) (name label : pystr) (v : pyval) :
  In (name, label) STAT_LABELS_KO -> In (PStr name, v) stats ->
  In (label, v) (stat_rows stats).
Proof.
  intros Hlabel. induction stats as [|[k v0] stats IH]; [intros []|].
  intros [Hhere|Hlater]; cbn [stat_rows].
  - inversion Hhere; subst. cbn [stat_label].
    rewrite (labels_find_known name label Hlabel). now left.
  - destruct (stat_label k); [right|]; now apply IH.
Qed.

(** X16. The stat chart of the creature card shows the stats with one of
    the six known names, and only those, under their Korean labels: every
    row comes from such a stat, every such stat has its row, and a record
    without stats gives no row. *)
Theorem stat_items_known_labels (pokemon stats : pydict) :
  dict_get pokemon (lit "stats") = PDict stats ->
  stat_items pokemon = Ret (stat_rows stats)
  /\ Forall (fun row => exists name,
               In (name, fst row) STAT_LABELS_KO /\ In (PStr name, snd row) stats)
            (stat_rows stats)
  /\ (length (stat_rows stats) <= length stats)%nat
  /\ (forall name label v,
        In (name, label) STAT_LABELS_KO -> In (PStr name, v) stats ->
        In (label, v) (stat_rows stats))
  /\ (stats = [] -> stat_items pokemon = Ret []).
Proof.
  intros Hstats.
  assert (Hitems : stat_items pokemon = Ret (stat_rows stats)).
  { unfold stat_items. rewrite Hstats. unfold py_or. now destruct stats. }
  split; [exact Hitems|].
  destruct (stat_rows_sound stats) as [Hsound Hlen].
  split; [exact Hsound|]. split; [exact Hlen|].
  split; [intros name label v; apply stat_rows_complete|].
  intros ->. exact Hitems.
Qed.

Lemma stat_items_witness :
  stat_items
    [ (PStr (lit "name"), PStr (lit "squirtle"));
      (PStr (lit "stats"),
       PDict [ (PStr (lit "hp"), PInt 44); (PStr (lit "accuracy"), PInt 100);
               (PStr (lit "speed"), PInt 43) ]) ]
  = Ret [ (lit "HP", PInt 44); (lit "스피드", PInt 43) ].
Proof.
  destruct (stat_items_known_labels
              [ (PStr (lit "name"), PStr (lit "squirtle"));
                (PStr (lit "stats"),
                 PDict [ (PStr (lit "hp"), PInt 44); (PStr (lit "accuracy"), PInt 100);
                         (PStr (lit "speed"), PInt 43) ]) ]
              [ (PStr (lit "hp"), PInt 44); (PStr (lit "accuracy"), PInt 100);
                (PStr (lit "speed"), PInt 43) ])
    as (Hitems & _).
  - vm_compute. reflexivity.
  - rewrite Hitems. vm_compute. reflexivity.
Defined.

(** ** [build_demo_week] *)

(** X17. Whatever the day, the demo frame has seven rows indexed by the
    seven consecutive days that end today, in chronological order, and its
    last row carries today's rate, count and mood. *)
Theorem demo_week_is_seven_days (base today_rate today_checked today_mood : Z) :
  let week := build_demo_week base today_rate today_checked today_mood in
  map row_date week = map (fun i => base - 6 + Z.of_nat i) (seq 0 7)
  /\ List.last week (WeekRow 0 0 0 0) = WeekRow base today_rate today_checked today_mood
  /\ (forall i a b, nth_error week i = Some a -> nth_error week (S i) = Some b ->
        row_date b = row_date a + 1).
Proof.
  intros week. subst week. unfold build_demo_week, range_down.
  change (Z.to_nat (6 - 0)) with 6%nat.
  cbn [seq map app nth List.last row_date].
  split; [repeat (f_equal; try lia)|]. split; [f_equal; lia|].
  intros i a b Ha Hb.
  do 7 (destruct i as [|i]; [cbn in Ha, Hb; inversion Ha; inversion Hb; subst; cbn; lia|]).
  destruct i; discriminate.
Qed.

(** ** A run of the page, and the run after it *)

Lemma generate_report_log w key style habits mood weather pokemon st :
  exists calls,
    net_log (snd (generate_report w key style habits mood weather pokemon st))
    = net_log st ++ calls
    /\ (length calls <= 1)%nat
    /\ Forall (fun c => exists req, c = OpenAICreate req) calls.
Proof.
  unfold generate_report. destruct (negb (str_truthy key)).
  - exists []. cbn. rewrite app_nil_r. repeat split; [lia | constructor].
  - unfold bind, lift.
    destruct (user_payload w habits mood weather pokemon) as [payload|e].
    + exists [OpenAICreate (report_request key style payload)].
      unfold call_openai. destruct (openai_answer w _ _); cbn [snd log_call net_log];
        (repeat split; [cbn; lia | repeat constructor; eauto]).
    + exists []. cbn. rewrite app_nil_r. repeat split; [lia | constructor].
Qed.

Lemma page_run_steps w city wkey okey style checkbox mood btn st wv s1 pv s2 :
  get_weather w city wkey st = (Ret wv, s1) ->
  get_pokemon w s1 = (Ret pv, s2) ->
  page_run w city wkey okey style checkbox mood btn st
  = if btn
    then match generate_report w okey style (checked_habits (habit_state checkbox))
                 mood wv pv s2 with
         | (Ret res, s3) => (Ret (wv, pv, Some res), s3)
         | (Raise e, s3) => (Raise e, s3)
         end
    else (Ret (wv, pv, None), s2).
Proof.
  intros Hw Hp. unfold page_run, bind. rewrite Hw, Hp. destruct btn; [|reflexivity].
  destruct (generate_report w okey style _ mood wv pv s2) as [[res|e] s3]; reflexivity.
Qed.

(** The state a run of the page ends in, after any earlier state [s2]
    reached by the two fetches. *)
Lemma page_run_end w city wkey okey style checkbox mood btn st wv s1 pv s2 :
  get_weather w city wkey st = (Ret wv, s1) ->
  get_pokemon w s1 = (Ret pv, s2) ->
  let s3 := snd (page_run w city wkey okey style checkbox mood btn st) in
  clock s3 = clock s2 /\ weather_cache s3 = weather_cache s2
  /\ pokemon_cache s3 = pokemon_cache s2
  /\ exists calls, net_log s3 = net_log s2 ++ calls
       /\ (length calls <= 1)%nat
       /\ Forall (fun c => exists req, c = OpenAICreate req) calls
       /\ (btn = false -> calls = []).
Proof.
  intros Hw Hp s3. subst s3.
  rewrite (page_run_steps w city wkey okey style checkbox mood btn st wv s1 pv s2 Hw Hp).
  destruct btn.
  - pose proof (generate_report_state w okey style (checked_habits (habit_state checkbox))
                  mood wv pv s2) as (Hc & Hwc & Hpc).
    destruct (generate_report_log w okey style (checked_habits (habit_state checkbox))
                mood wv pv s2) as (calls & Hlog & Hlen & Hall).
    destruct (generate_report w okey style _ mood wv pv s2) as [[res|e] s3];
      cbn [snd] in *; (repeat split; try assumption);
      exists calls; repeat split; try assumption; discriminate.
  - cbn [snd]. repeat split. exists []. rewrite app_nil_r.
    repeat split; [cbn; lia | constructor].
Qed.

(** X18. A run of the page from cold caches issues at most three network
    calls. A second run for the same city and weather key less than 600
    seconds later issues no fetch at all - at most the one generation
    request, and none when the button is not pressed - and shows the same
    weather and the same creature. *)
Theorem page_rerun_fetches_nothing (w : World) (st : state)
    (city wkey okey style : pystr) (checkbox : pystr -> bool) (mood : Z)
    (b1 b2 : bool) (t2 : Z) :
  cache_live weather_ttl weather_cache st (city, wkey) = None ->
  cache_live pokemon_ttl pokemon_cache st tt = None ->
  clock st <= t2 < clock st + 600 ->
  let first := page_run w city wkey okey style checkbox mood b1 st in
  let st1 := set_clock t2 (snd first) in
  let second := page_run w city wkey okey style checkbox mood b2 st1 in
  (length (net_log (snd first)) <= length (net_log st) + 3)%nat
  /\ (exists calls,
        net_log (snd second) = net_log st1 ++ calls
        /\ (length calls <= 1)%nat
        /\ Forall (fun c => exists req, c = OpenAICreate req) calls
        /\ (b2 = false -> calls = []))
  /\ (forall wv pv r1 wv' pv' r2,
        fst first = Ret (wv, pv, r1) -> fst second = Ret (wv', pv', r2) ->
        wv' = wv /\ pv' = pv).
Proof.
  intros Hwlive Hplive Ht first st1 second.
  (* the first run *)
  pose proof (get_weather_run w city wkey st) as Hw. rewrite Hwlive in Hw.
  destruct Hw as (s1 & Hw & Hc1 & Hwc1 & Hpc1 & Hlog1).
  assert (Hplive1 : cache_live pokemon_ttl pokemon_cache s1 tt = None).
  { unfold cache_live in *. now rewrite Hpc1, Hc1. }
  pose proof (get_pokemon_run w s1) as Hp. rewrite Hplive1 in Hp.
  destruct Hp as (s2 & Hp & Hc2 & Hwc2 & Hpc2 & Hlog2).
  destruct (page_run_end w city wkey okey style checkbox mood b1 st _ s1 _ s2 Hw Hp)
    as (Hc3 & Hwc3 & Hpc3 & calls1 & Hlog3 & Hlen3 & _).
  fold first in Hc3, Hwc3, Hpc3, Hlog3.
  (* the second run is served from both caches *)
  assert (Hwhit : get_weather w city wkey st1
                  = (Ret (fetched_weather w city wkey st), st1)).
  { pose proof (get_weather_run w city wkey st1) as Hrun.
    unfold st1 in Hrun |- *.
    rewrite (cache_live_after_store (snd first) city wkey (clock st) t2
               (fetched_weather w city wkey st)) in Hrun.
    - exact Hrun.
    - rewrite Hwc3, Hwc2, Hwc1. apply lookup_insert_eq.
    - lia. }
  assert (Hphit : exists pv0, get_pokemon w st1 = (Ret pv0, st1)
                              /\ get_pokemon w s1 = (Ret pv0, s2)).
  { eexists. split; [|exact Hp].
    pose proof (get_pokemon_run w st1) as Hrun.
    unfold st1 in Hrun |- *.
    erewrite (cache_live_pokemon_after_store (snd first) (clock s1) t2) in Hrun.
    - exact Hrun.
    - rewrite Hpc3, Hpc2. apply lookup_insert_eq.
    - lia. }
  destruct Hphit as (pv0 & Hphit & Hp').
  destruct (page_run_end w city wkey okey style checkbox mood b2 st1 _ st1 _ st1
              Hwhit Hphit) as (_ & _ & _ & calls2 & Hlog4 & Hlen4 & Hall4 & Hoff).
  fold second in Hlog4.
  split; [|split].
  - rewrite Hlog3, Hlog2, Hlog1. destruct (str_truthy wkey); rewrite !length_app; cbn; lia.
  - exists calls2. repeat split; assumption.
  - intros wv pv r1 wv' pv' r2 Hfirst Hsecond. subst first second.
    rewrite (page_run_steps w city wkey okey style checkbox mood b1 st _ s1 _ s2 Hw Hp')
      in Hfirst.
    rewrite (page_run_steps w city wkey okey style checkbox mood b2 st1 _ st1 _ st1
               Hwhit Hphit) in Hsecond.
    destruct b1, b2;
      repeat match goal with
      | H : fst (match ?g with _ => _ end) = _ |- _ => destruct g as [[?|?] ?]
      end;
      cbn [fst] in Hfirst, Hsecond; split; congruence.
Qed.

Lemma page_rerun_witness :
  let w := recovering_world in
  let first := page_run w (lit "Seoul") (lit "key") (lit "sk-test") (lit "게임 마스터")
                 (fun _ => true) 8 true (initial_state 0) in
  let second := page_run w (lit "Seoul") (lit "key") (lit "sk-test") (lit "게임 마스터")
                  (fun _ => true) 8 false (set_clock 300 (snd first)) in
  length (net_log (snd first)) = 3%nat
  /\ net_log (snd second) = net_log (snd first).
Proof.
  intros w first second. split; [vm_compute; reflexivity|].
  destruct (page_rerun_fetches_nothing w (initial_state 0) (lit "Seoul") (lit "key")
              (lit "sk-test") (lit "게임 마스터") (fun _ => true) 8 true false 300)
    as (_ & (calls & Hlog & _ & _ & Hoff) & _).
  - reflexivity.
  - reflexivity.
  - cbn. lia.
  - fold first in Hlog. fold second in Hlog. rewrite Hlog, (Hoff eq_refl).
    cbn [set_clock net_log]. apply app_nil_r.
Defined.

(** ** The text offered for sharing *)

Lemma strip_open_block a s b :
  is_space a = false -> is_space b = false ->
  strip ((a :: s) ++ [b] ++ nl) = (a :: s) ++ [b].
Proof.
  intros Ha Hb. unfold strip, nl.
  change ((a :: s) ++ [b] ++ [10%N]) with (a :: (s ++ [b] ++ [10%N])).
  rewrite lstrip_nonspace by assumption.
  change (a :: s ++ [b] ++ [10%N]) with ((a :: s) ++ [b] ++ [10%N]).
  rewrite !app_assoc. rewrite rstrip_snoc_space by reflexivity.
  now rewrite rstrip_snoc_nonspace.
Qed.

Lemma trimmed_last (s : pystr) :
  s <> [] -> trimmed s -> exists r b, s = r ++ [b] /\ is_space b = false.
Proof.
  intros Hne [_ Hlast]. destruct (exists_last Hne) as (r & b & ->).
  exists r, b. split; [reflexivity|]. now apply (Hlast b r).
Qed.

(** X19. The shareable text is its header lines followed by the report as
    it is: for a report that is not empty and has no whitespace at its ends
    (what [generate_report] returns on success), nothing of the summary or
    of the report is cut. *)
Theorem share_text_carries_report (achv_rate : Z) (checked_count : nat)
    (checked : list pystr) (mood : Z) (city report : pystr) :
  report <> [] -> trimmed report ->
  share_text achv_rate checked_count checked mood city report
  = lit "[AI 습관 트래커 - 오늘의 컨디션]" ++ nl ++
    lit "- 달성률: " ++ str_of_Z achv_rate ++ lit "% (" ++
      str_of_Z (Z.of_nat checked_count) ++ lit "/" ++ str_of_Z 5 ++ lit ")" ++ nl ++
    lit "- 완료: " ++ habits_text checked ++ nl ++
    lit "- 기분: " ++ str_of_Z mood ++ lit "/10" ++ nl ++
    lit "- 도시: " ++ city ++ nl ++
    nl ++
    report.
Proof.
  intros Hne Htrim. destruct (trimmed_last report Hne Htrim) as (r & b & -> & Hb).
  unfold share_text. change (Z.of_nat (length HABITS)) with 5.
  assert (Hfirst : lit "[AI 습관 트래커 - 오늘의 컨디션]"
                   = 91%N :: lit "AI 습관 트래커 - 오늘의 컨디션]") by (vm_compute; reflexivity).
  rewrite Hfirst.
  transitivity
    (strip ((91%N :: (lit "AI 습관 트래커 - 오늘의 컨디션]" ++ nl ++
               lit "- 달성률: " ++ str_of_Z achv_rate ++ lit "% (" ++
                 str_of_Z (Z.of_nat checked_count) ++ lit "/" ++ str_of_Z 5 ++
                 lit ")" ++ nl ++
               lit "- 완료: " ++ habits_text checked ++ nl ++
               lit "- 기분: " ++ str_of_Z mood ++ lit "/10" ++ nl ++
               lit "- 도시: " ++ city ++ nl ++
               nl ++
               r)) ++ [b] ++ nl)).
  - f_equal. rewrite <- !app_comm_cons, <- !app_assoc. reflexivity.
  - rewrite strip_open_block by (reflexivity || assumption).
    rewrite <- !app_comm_cons, <- !app_assoc. reflexivity.
Qed.

Lemma share_text_witness :
  share_text 80 4 [lit "물 마시기"] 9 (lit "Seoul") (lit "1) 컨디션 등급: S")
  = lit "[AI 습관 트래커 - 오늘의 컨디션]" ++ nl ++
    lit "- 달성률: " ++ str_of_Z 80 ++ lit "% (" ++
      str_of_Z (Z.of_nat 4) ++ lit "/" ++ str_of_Z 5 ++ lit ")" ++ nl ++
    lit "- 완료: " ++ habits_text [lit "물 마시기"] ++ nl ++
    lit "- 기분: " ++ str_of_Z 9 ++ lit "/10" ++ nl ++
    lit "- 도시: " ++ lit "Seoul" ++ nl ++
    nl ++
    lit "1) 컨디션 등급: S".
Proof.
  apply share_text_carries_report.
  - vm_compute. discriminate.
  - change (lit "1) 컨디션 등급: S") with (strip (lit "1) 컨디션 등급: S")).
    apply strip_spec.
Defined.

(** ** The completed habits *)

(** X20. Whatever is ticked, the list of completed habits holds exactly the
    ticked habits, each once, in the order of the catalog; its length is
    the count shown on the page. *)
Theorem checked_habits_in_catalog_order (checkbox : pystr -> bool) :
  let ticked h := checkbox (fst h ++ lit " " ++ snd h) in
  checked_habits (habit_state checkbox) = map snd (List.filter ticked HABITS)
  /\ checked_count (habit_state checkbox) = length (List.filter ticked HABITS)
  /\ List.NoDup (checked_habits (habit_state checkbox)).
Proof.
  intros ticked. subst ticked. unfold checked_count.
  assert (Hlist : checked_habits (habit_state checkbox)
                  = map snd (List.filter
                               (fun h => checkbox (fst h ++ lit " " ++ snd h)) HABITS)).
  { rewrite habit_state_entries. unfold HABITS, checked_habits.
    cbn [List.filter fst snd].
    change (lit "🌅" ++ lit " " ++ lit "기상 미션") with (lit "🌅 기상 미션").
    change (lit "💧" ++ lit " " ++ lit "물 마시기") with (lit "💧 물 마시기").
    change (lit "📚" ++ lit " " ++ lit "공부/독서") with (lit "📚 공부/독서").
    change (lit "🏃" ++ lit " " ++ lit "운동하기") with (lit "🏃 운동하기").
    change (lit "😴" ++ lit " " ++ lit "수면") with (lit "😴 수면").
    destruct (checkbox (lit "🌅 기상 미션")), (checkbox (lit "💧 물 마시기")),
             (checkbox (lit "📚 공부/독서")), (checkbox (lit "🏃 운동하기")),
             (checkbox (lit "😴 수면")); reflexivity. }
  split; [exact Hlist|]. split; [now rewrite Hlist, length_map|].
  rewrite habit_state_entries. unfold checked_habits. cbn [List.filter fst snd].
  destruct (checkbox (lit "🌅 기상 미션")), (checkbox (lit "💧 물 마시기")),
           (checkbox (lit "📚 공부/독서")), (checkbox (lit "🏃 운동하기")),
           (checkbox (lit "😴 수면"));
    apply NoDup_ListNoDup;
    match goal with
    | |- NoDup ?l => apply (bool_decide_unpack (NoDup l)); vm_compute; exact I
    end.
Qed.

(** ** Weather bodies outside the known shape *)

Lemma py_get_not_object v key dflt :
  is_object v = false -> py_get v key dflt = Raise AttributeError.
Proof. destruct v; (discriminate || reflexivity). Qed.

Ltac step_or_raise :=
  match goal with
  | |- exists e, obind ?a _ = Raise e =>
    let x := fresh "x" in
    destruct a as [x|]; [cbn [obind] | eexists; reflexivity]
  end.

Lemma weather_record_malformed city j :
  malformed_weather j -> exists e, weather_record city j = Raise e.
Proof.
  intros [Hj | (body & -> & [(v & Hmain & Hv) | [(v & Hwind & Hv) | Hempty]])];
    unfold weather_record.
  - rewrite (py_get_not_object j) by exact Hj. eexists. reflexivity.
  - cbn [py_get]. rewrite Hmain. cbn [default obind].
    rewrite (py_get_not_object v) by exact Hv. eexists. reflexivity.
  - do 4 step_or_raise.
    cbn [py_get]. rewrite Hwind. cbn [default obind].
    rewrite (py_get_not_object v) by exact Hv. eexists. reflexivity.
  - do 3 step_or_raise.
    cbn [py_get]. rewrite Hempty. eexists. reflexivity.
Qed.

(** X21. A 200 response whose body is JSON but not of the known shape -
    not an object, a [main] or [wind] that is not an object, or an empty
    [weather] array - gives [None] for the whole record, and no
    exception. *)
Theorem weather_malformed_body_is_absent (w : World) (st : state)
    (city key : pystr) (r : http_response) (j : pyval) :
  key <> [] ->
  cache_live weather_ttl weather_cache st (city, key) = None ->
  http_answer w (length (net_log st)) (weather_request city key) = Answered r ->
  json r = Answered j ->
  malformed_weather j ->
  exists st', get_weather w city key st = (Ret None, st').
Proof.
  intros Hkey Hlive Hans Hjson Hbad.
  pose proof (get_weather_run w city key st) as Hrun. rewrite Hlive in Hrun.
  destruct Hrun as (st' & Hrun & _). exists st'. rewrite Hrun. do 2 f_equal.
  unfold fetched_weather. destruct (str_truthy key); [|reflexivity].
  rewrite Hans. unfold weather_of_answer. rewrite Hjson.
  destruct (weather_record_malformed city j Hbad) as (e & ->).
  now destruct (status_code r =? 200).
Qed.

Lemma weather_malformed_witness :
  exists st',
    get_weather
      (scripted_world (ok_json (PDict [(PStr (lit "main"), PNone)])) (Failed []) 0)
      (lit "Seoul") (lit "key") (initial_state 0) = (Ret None, st').
Proof.
  apply (weather_malformed_body_is_absent _ _ _ _
           (HttpResponse 200 (Answered (PDict [(PStr (lit "main"), PNone)])))
           (PDict [(PStr (lit "main"), PNone)])).
  - discriminate.
  - reflexivity.
  - reflexivity.
  - reflexivity.
  - right. eexists. split; [reflexivity|]. left. exists PNone. split; reflexivity.
Defined.
